(** * Folder Zipper: a shallow embedding of [assets/js/script.js]

    The development follows the layout of the script: constants, utility
    functions ([isFile]), file handling (grouping of an uploaded batch),
    folder management (add / remove) and the zip operations.

    Conventions of the embedding.
    - A JavaScript string is a [string] of the Standard Library (a sequence of
      8-bit characters); [toLowerCase] acts on the letters [A]-[Z], which is
      what JavaScript does on this alphabet.
    - [undefined] and [null] results are [None].
    - The application state [state = { folders, shouldStopZipping }] is the
      record [State]; the part of the document the logic reads (which
      [folder-<id>] rows exist) is the field [foldersList] of [Page].
    - An [async] function is a function of an oracle [env : nat -> bool]:
      [env k = true] means that the stop button is clicked while the run is
      suspended at its [k]-th [await]. *)

From Stdlib Require Import List String Ascii Bool Arith ZArith Lia Permutation.
Import ListNotations.
Local Open Scope string_scope.
Local Open Scope nat_scope.
Local Open Scope list_scope.

(* ====================================================================== *)
(** ** JavaScript built-ins used by the script *)
(* ====================================================================== *)

(** [undefined] or [null] as the absent case. *)
Definition JsOpt (A : Type) : Type := option A.

(** The [length] property, which strings and arrays both have. *)
Class HasLength (A : Type) : Type := js_length : A -> nat.

#[export] Instance string_HasLength : HasLength string := String.length.
#[export] Instance array_HasLength {B : Type} : HasLength (list B) :=
  @List.length B.

(** [c.toLowerCase()] on one character. *)
Definition lower_ascii (c : ascii) : ascii :=
  let n := nat_of_ascii c in
  if (65 <=? n) && (n <=? 90) then ascii_of_nat (n + 32) else c.

(** [s.toLowerCase()]. *)
Fixpoint toLowerCase (s : string) : string :=
  match s with
  | EmptyString => EmptyString
  | String c rest => String (lower_ascii c) (toLowerCase rest)
  end.

(** [s.endsWith(ext)]: the last [ext.length] characters of [s] are [ext]. *)
Definition endsWith (s ext : string) : bool :=
  let len := String.length s in
  let searchLength := String.length ext in
  if len <? searchLength then false
  else String.eqb (substring (len - searchLength) searchLength s) ext.

(** The class [\w] of a regular expression: [A-Za-z0-9_]. *)
Definition is_word_char (c : ascii) : bool :=
  let n := nat_of_ascii c in
  ((65 <=? n) && (n <=? 90)) || ((97 <=? n) && (n <=? 122))
  || ((48 <=? n) && (n <=? 57)) || (n =? 95).

Fixpoint all_word_chars (s : string) : bool :=
  match s with
  | EmptyString => true
  | String c rest => is_word_char c && all_word_chars rest
  end.

(** [\w{1,5}$] tried at one position: because of the anchor [$], the whole
    remainder has to be between one and five word characters. *)
Definition word_1_5_then_end (s : string) : bool :=
  (1 <=? String.length s) && (String.length s <=? 5) && all_word_chars s.

(** [/\.\w{1,5}$/.test(s)]: the pattern is tried at every position of [s]. *)
Fixpoint test_dot_word_1_5_end (s : string) : bool :=
  match s with
  | EmptyString => false
  | String c rest =>
      (Ascii.eqb c "."%char && word_1_5_then_end rest)
      || test_dot_word_1_5_end rest
  end.

(** [s.split(sep)] for a one-character separator; the result is never empty:
    [''.split('/')] is [['']]. *)
Fixpoint split (sep : ascii) (s : string) : list string :=
  match s with
  | EmptyString => [EmptyString]
  | String c rest =>
      if Ascii.eqb c sep then EmptyString :: split sep rest
      else match split sep rest with
           | seg :: segs => String c seg :: segs
           | [] => [String c EmptyString]
           end
  end.

(** [parts.join(sep)]. *)
Definition join (sep : string) (parts : list string) : string :=
  String.concat sep parts.

(** [parts.indexOf(x)]: index of the first element equal to [x], or [-1]. *)
Fixpoint indexOf (parts : list string) (x : string) : Z :=
  match parts with
  | [] => (-1)%Z
  | p :: rest =>
      if String.eqb p x then 0%Z
      else let r := indexOf rest x in
           if (r <? 0)%Z then (-1)%Z else (r + 1)%Z
  end.

(** [parts.slice(start)] for a start index that is not negative. *)
Definition slice (start : Z) (parts : list string) : list string :=
  skipn (Z.to_nat start) parts.

(** [a || b] on strings: the empty string is the only falsy one. *)
Definition or_else (a b : string) : string :=
  match a with
  | EmptyString => b
  | _ => a
  end.

(** Truthiness of a value that is a string, [null] or [undefined]. *)
Definition truthy (v : JsOpt string) : bool :=
  match v with
  | Some EmptyString => false
  | Some _ => true
  | None => false
  end.

(** Equality of two values that are strings or absent ([SameValueZero]). *)
Definition same_value (a b : JsOpt string) : bool :=
  match a, b with
  | Some x, Some y => String.eqb x y
  | None, None => true
  | _, _ => false
  end.

(** [new Set(xs)]: every value is added in turn, a value already present is
    not added again; the result lists the members in insertion order. *)
Fixpoint Set_add_all (members xs : list (JsOpt string)) : list (JsOpt string) :=
  match xs with
  | [] => members
  | x :: rest =>
      if existsb (same_value x) members then Set_add_all members rest
      else Set_add_all (members ++ [x]) rest
  end.

Definition Set_of (xs : list (JsOpt string)) : list (JsOpt string) :=
  Set_add_all [] xs.

(* ====================================================================== *)
(** ** Configuration and constants *)
(* ====================================================================== *)

Definition SUPPORTED_FILE_EXTENSIONS : list string :=
  [ ".html"; ".htm"; ".css"; ".js"; ".json"; ".xml"; ".txt"; ".md";
    ".jpg"; ".jpeg"; ".png"; ".gif"; ".svg"; ".bmp"; ".webp"; ".ico";
    ".zip"; ".rar"; ".7z"; ".tar"; ".gz"; ".pdf"; ".doc"; ".docx";
    ".xls"; ".xlsx"; ".ppt"; ".pptx"; ".mp3"; ".mp4"; ".avi"; ".mov";
    ".wmv"; ".csv"; ".log"; ".ini"; ".conf"; ".config" ].

(** [FOLDER_STATUS]. *)
Inductive FolderStatus : Type :=
  | PENDING
  | ZIPPING
  | COMPLETE.

Definition FolderStatus_eqb (a b : FolderStatus) : bool :=
  match a, b with
  | PENDING, PENDING | ZIPPING, ZIPPING | COMPLETE, COMPLETE => true
  | _, _ => false
  end.

(* ====================================================================== *)
(** ** Utility functions *)
(* ====================================================================== *)

(** [isFile(name)]: [true] for a file, [false] for a folder. *)
Definition isFile (name : string) : bool :=
  let lowerName := toLowerCase name in
  let hasExtension :=
    existsb (fun ext => endsWith lowerName ext) SUPPORTED_FILE_EXTENSIONS in
  let hasGenericExtension := test_dot_word_1_5_end lowerName in
  hasExtension || hasGenericExtension.

(* ====================================================================== *)
(** ** Data model *)
(* ====================================================================== *)

(** A [File] of the platform: the script reads its [webkitRelativePath] and
    its [name]; the content is only handed to the archive library. *)
Module File.
Record t : Type := mk {
  webkitRelativePath : string;
  name : string
}.
End File.

(** The archive library.  A [JSZip] instance is the sequence of its
    [zip.file(path, data)] calls, the archive it generates is determined by
    that sequence. *)
Definition JSZip : Type := list (string * File.t).

Definition new_JSZip : JSZip := [].

Definition zip_file (zip : JSZip) (path : string) (data : File.t) : JSZip :=
  zip ++ [(path, data)].

Inductive Blob : Type :=
  | ZipBlob (entries : JSZip).

(** [zip.generateAsync(ZIP_CONFIG)], once its promise is fulfilled. *)
Definition generateAsync (zip : JSZip) : Blob := ZipBlob zip.

(** Folder ids are numbers that the script only compares for equality. *)
Definition FolderId : Type := N.

(** A folder object, the record of one row of the list. *)
Module Folder.
Record t : Type := mk {
  id : FolderId;
  name : string;
  files : list File.t;
  status : FolderStatus;
  progress : Z;
  zipBlob : JsOpt Blob;
  isFile : bool
}.

Definition set_status (s : FolderStatus) (f : t) : t :=
  mk (id f) (name f) (files f) s (progress f) (zipBlob f) (isFile f).

Definition set_progress (p : Z) (f : t) : t :=
  mk (id f) (name f) (files f) (status f) p (zipBlob f) (isFile f).

Definition set_zipBlob (b : JsOpt Blob) (f : t) : t :=
  mk (id f) (name f) (files f) (status f) (progress f) b (isFile f).
End Folder.

(** The application state. *)
Record State : Type := mkState {
  folders : list Folder.t;
  shouldStopZipping : bool
}.

(** The state together with what the logic reads back from the document:
    the ids [i] for which an element [folder-<i>] is in the folders list. *)
Record Page : Type := mkPage {
  state : State;
  foldersList : list FolderId
}.

(** [getElementById('folder', id)] is not [null]. *)
Definition hasFolderElement (page : Page) (i : FolderId) : bool :=
  existsb (N.eqb i) (foldersList page).

(* ====================================================================== *)
(** ** File handling *)
(* ====================================================================== *)

(** [parts[0]] and [parts[1]]. *)
Definition at0 (parts : list string) : JsOpt string := nth_error parts 0.
Definition at1 (parts : list string) : JsOpt string := nth_error parts 1.

(** [extractCommonRoot(pathParts)]. *)
Definition extractCommonRoot (pathParts : list (list string)) : JsOpt string :=
  let uniqueRoots := Set_of (map at0 pathParts) in
  if List.length uniqueRoots =? 1
  then match pathParts with
       | first :: _ => at0 first
       | [] => None
       end
  else None.

(** [extractFolderName(pathParts, commonRoot, allPathParts)].  The function
    reads only [length] of the members of [allPathParts], so it is defined
    for every type of member that has a length. *)
Definition extractFolderName {A : Type} `{HasLength A}
    (pathParts : list string) (commonRoot : JsOpt string)
    (allPathParts : list A) : JsOpt string :=
  let hasNestedFolders := existsb (fun parts => 1 <? js_length parts) allPathParts in
  let isNested := 1 <? List.length pathParts in
  if truthy commonRoot && hasNestedFolders && isNested
  then at1 pathParts
  else at0 pathParts.

(** The [Map] from folder name to files of [processUploadedFiles], in
    insertion order. *)
Definition FolderMap : Type := list (string * list File.t).

Definition Map_has (m : FolderMap) (key : string) : bool :=
  existsb (fun kv => String.eqb (fst kv) key) m.

(** [if (!m.has(key)) m.set(key, []); m.get(key).push(file)]. *)
Fixpoint Map_push (m : FolderMap) (key : string) (file : File.t) : FolderMap :=
  match m with
  | [] => [(key, [file])]
  | (k, fs) :: rest =>
      if String.eqb k key then (k, fs ++ [file]) :: rest
      else (k, fs) :: Map_push rest key file
  end.

(** The first loop of [processUploadedFiles] ("Group files by folder name").
    Inside the loop the local [pathParts] (the parts of the current file)
    hides the outer [pathParts] (the parts of all files), and it is this
    local array that is passed as [allPathParts]. *)
Definition groupFile (commonRoot : JsOpt string) (folderMap : FolderMap)
    (file : File.t) : FolderMap :=
  let pathParts := split "/" (File.webkitRelativePath file) in
  match extractFolderName pathParts commonRoot pathParts with
  | Some folderName => Map_push folderMap folderName file
  | None => folderMap (* not reached: [split] never returns an empty array *)
  end.

Definition processUploadedFiles_folderMap (fileArray : list File.t) : FolderMap :=
  let pathParts := map (fun file => split "/" (File.webkitRelativePath file)) fileArray in
  let commonRoot := extractCommonRoot pathParts in
  fold_left (groupFile commonRoot) fileArray [].

(** [createFolderObject(name, files)]; [newId] is what [generateFolderId()]
    returns in this call. *)
Definition createFolderObject (newId : FolderId) (name : string)
    (files : list File.t) : Folder.t :=
  Folder.mk newId name files PENDING 0%Z None (isFile name).

(** [addFolder(name, files)]; [renderFolder] appends the row of the folder to
    the folders list. *)
Definition addFolder (newId : FolderId) (name : string) (files : list File.t)
    (page : Page) : Page :=
  let st := state page in
  if existsb (fun folder => String.eqb (Folder.name folder) name) (folders st)
  then page
  else
    let folder := createFolderObject newId name files in
    mkPage (mkState (folders st ++ [folder]) (shouldStopZipping st))
           (foldersList page ++ [Folder.id folder]).

(** The second loop of [processUploadedFiles]: every entry of the map is
    handed to [addFolder], in order; [ids k] is the id generated for the
    [k]-th entry. *)
Fixpoint addFolders (ids : nat -> FolderId) (k : nat) (m : FolderMap)
    (page : Page) : Page :=
  match m with
  | [] => page
  | (name, files) :: rest =>
      addFolders ids (S k) rest (addFolder (ids k) name files page)
  end.

Definition processUploadedFiles (ids : nat -> FolderId)
    (files : list File.t) (page : Page) : Page :=
  addFolders ids 0 (processUploadedFiles_folderMap files) page.

(* ====================================================================== *)
(** ** Folder validation and folder management *)
(* ====================================================================== *)

(** [validateAndHighlightFiles()]: its result; the tooltips it shows do not
    change the state nor the set of rows. *)
Definition validateAndHighlightFiles (st : State) : bool :=
  let unwantedFiles := filter Folder.isFile (folders st) in
  if List.length unwantedFiles =? 0 then false else true.

(** [removeFolder(folder)], up to the point where the removal animation is
    scheduled. *)
Definition removeFolder (folder : Folder.t) (page : Page) : Page :=
  if FolderStatus_eqb (Folder.status folder) ZIPPING then page
  else if negb (hasFolderElement page (Folder.id folder)) then page
  else
    let st := state page in
    mkPage
      (mkState
         (filter (fun f => negb (N.eqb (Folder.id f) (Folder.id folder))) (folders st))
         (shouldStopZipping st))
      (foldersList page).

(** The callback [removeFolder] schedules: the row leaves the document. *)
Definition removeFolder_timeout (folder : Folder.t) (page : Page) : Page :=
  mkPage (state page)
         (filter (fun i => negb (N.eqb i (Folder.id folder))) (foldersList page)).

(** [removeUnwantedFiles()], up to the point where the removal animations
    are scheduled. *)
Definition removeUnwantedFiles (page : Page) : Page :=
  let st := state page in
  let unwantedFiles := filter Folder.isFile (folders st) in
  if List.length unwantedFiles =? 0 then page
  else
    mkPage
      (mkState (filter (fun f => negb (Folder.isFile f)) (folders st))
               (shouldStopZipping st))
      (foldersList page).

(** The callback scheduled for one unwanted row; [isLast] tells whether it is
    the one of the last unwanted row, which filters the state once more. *)
Definition removeUnwantedFiles_timeout (file : Folder.t) (isLast : bool)
    (page : Page) : Page :=
  let st := state page in
  let rows := filter (fun i => negb (N.eqb i (Folder.id file))) (foldersList page) in
  if isLast
  then mkPage
         (mkState (filter (fun f => negb (Folder.isFile f)) (folders st))
                  (shouldStopZipping st))
         rows
  else mkPage st rows.

(** [stopZipping()]. *)
Definition stopZipping (st : State) : State :=
  mkState (folders st) true.

(** [clearAllFolders()]. *)
Definition clearAllFolders (page : Page) : Page :=
  mkPage (mkState [] true) [].

(* ====================================================================== *)
(** ** Zip operations *)
(* ====================================================================== *)

(** [calculateRelativePath(file, folderName)]. *)
Definition calculateRelativePath (file : File.t) (folderName : string) : string :=
  let pathParts := split "/" (File.webkitRelativePath file) in
  let folderIndex := indexOf pathParts folderName in
  if (0 <=? folderIndex)%Z then
    let relativeParts := slice (folderIndex + 1) pathParts in
    or_else (join "/" relativeParts) (File.name file)
  else if 1 <? List.length pathParts then
    or_else (join "/" (slice 1 pathParts)) (File.name file)
  else File.name file.

(** [resetFolderState(folder)]. *)
Definition resetFolderState (folder : Folder.t) : Folder.t :=
  Folder.set_progress 0%Z (Folder.set_status PENDING folder).

(** What a running [zipAllFolders] shares with the event handlers: the flag
    [state.shouldStopZipping], and the number of [await]s passed so far. *)
Record Sched : Type := mkSched {
  stopFlag : bool;
  awaits : nat
}.

(** One [await]: the run is suspended, the stop handler runs if the oracle
    says so, and the run resumes.  The other handlers (a new upload, a
    removal, clear all) are not run during an await of this model. *)
Definition await (env : nat -> bool) (s : Sched) : Sched :=
  mkSched (stopFlag s || env (awaits s)) (S (awaits s)).

Section ZipOperations.

(** [Math.round(((i + 1) / totalFiles) * 100)], a double-precision
    computation: [round_percent (i + 1) totalFiles]. *)
Variable round_percent : nat -> nat -> Z.

(** The oracle of the stop button. *)
Variable env : nat -> bool.

(** The end of [zipFolder], from "Check again before generating zip". *)
Definition zipFolder_generate (zip : JSZip) (folder : Folder.t) (s : Sched)
    : Folder.t * Sched :=
  if stopFlag s then (resetFolderState folder, s)
  else
    let s := await env s in
    let folder := Folder.set_zipBlob (Some (generateAsync zip)) folder in
    let folder := Folder.set_status COMPLETE folder in
    let folder := Folder.set_progress 100%Z folder in
    (folder, s).

(** The loop [for (let i = 0; i < totalFiles; i++)] of [zipFolder];
    [rest] is [folder.files] from index [i] on. *)
Fixpoint zipFolder_loop (totalFiles i : nat) (rest : list File.t)
    (zip : JSZip) (folder : Folder.t) (s : Sched) : Folder.t * Sched :=
  match rest with
  | [] => zipFolder_generate zip folder s
  | file :: rest' =>
      if stopFlag s then (resetFolderState folder, s)
      else
        let relativePath := calculateRelativePath file (Folder.name folder) in
        let zip := zip_file zip relativePath file in
        let folder := Folder.set_progress (round_percent (i + 1) totalFiles) folder in
        let s := await env s in
        zipFolder_loop totalFiles (S i) rest' zip folder s
  end.

(** [zipFolder(folder)]. *)
Definition zipFolder (folder : Folder.t) (s : Sched) : Folder.t * Sched :=
  if stopFlag s then (resetFolderState folder, s)
  else
    let folder := Folder.set_status ZIPPING folder in
    let zip := new_JSZip in
    let totalFiles := List.length (Folder.files folder) in
    zipFolder_loop totalFiles 0 (Folder.files folder) zip folder s.

(** The condition under which [zipAllFolders] zips a folder. *)
Definition isPendingFolder (folder : Folder.t) : bool :=
  FolderStatus_eqb (Folder.status folder) PENDING && negb (Folder.isFile folder).

(** The loop [for (const folder of state.folders)] of [zipAllFolders]. *)
Fixpoint zipAllFolders_loop (fs : list Folder.t) (s : Sched)
    : list Folder.t * Sched :=
  match fs with
  | [] => ([], s)
  | folder :: rest =>
      if stopFlag s then (folder :: rest, s)
      else if isPendingFolder folder then
        let '(folder', s') := zipFolder folder s in
        let '(rest', s'') := zipAllFolders_loop rest s' in
        (folder' :: rest', s'')
      else
        let '(rest', s'') := zipAllFolders_loop rest s in
        (folder :: rest', s'')
  end.

(** [zipAllFolders()]. *)
Definition zipAllFolders (st : State) : State :=
  if validateAndHighlightFiles st then st
  else
    let s := mkSched false 0 in
    let '(fs, s') := zipAllFolders_loop (folders st) s in
    mkState fs (stopFlag s').

End ZipOperations.

(** The number of [await]s a run of the loop of [zipAllFolders] over [fs]
    passes when nobody stops it: one per file and one for the generation of
    the archive, for every folder that is zipped. *)
Fixpoint awaits_of (fs : list Folder.t) : nat :=
  match fs with
  | [] => 0
  | folder :: rest =>
      (if isPendingFolder folder then S (List.length (Folder.files folder)) else 0)
      + awaits_of rest
  end.

(** The entries [zipFolder] puts in the archive of a folder. *)
Definition zipEntries (folderName : string) (files : list File.t) : JSZip :=
  map (fun file => (calculateRelativePath file folderName, file)) files.

(** A folder after a zip that ran to its end. *)
Definition zipped (folder : Folder.t) : Folder.t :=
  Folder.mk (Folder.id folder) (Folder.name folder) (Folder.files folder)
            COMPLETE 100%Z
            (Some (generateAsync (zipEntries (Folder.name folder) (Folder.files folder))))
            (Folder.isFile folder).

(** What a run of [zipAllFolders] that is not stopped does to a folder. *)
Definition zippedIfPending (folder : Folder.t) : Folder.t :=
  if isPendingFolder folder then zipped folder else folder.

(** Rounding of an exact quotient to the nearest integer, halves upwards:
    an instance of [round_percent] to run the model with. *)
Definition round_percent_exact (k totalFiles : nat) : Z :=
  ((200 * Z.of_nat k + Z.of_nat totalFiles) / (2 * Z.of_nat totalFiles))%Z.

(* ====================================================================== *)
(** ** The grouping rule in the words of the specification *)
(* ====================================================================== *)

(** "All entries share the same first path segment." *)
Definition spec_hasCommonRoot (batch : list (list string)) : bool :=
  match batch with
  | [] => false
  | first :: rest => forallb (fun parts => same_value (at0 parts) (at0 first)) rest
  end.

(** "If a common root exists and the batch contains at least one entry whose
    path has more than one segment and this entry's own path has more than
    one segment, the group name is the entry's second path segment;
    otherwise it is the entry's first path segment." *)
Definition spec_groupName (batch : list (list string)) (entry : list string)
    : JsOpt string :=
  if spec_hasCommonRoot batch
     && existsb (fun parts => 1 <? List.length parts) batch
     && (1 <? List.length entry)
  then at1 entry
  else at0 entry.

(** The group name the script computes for a file of a batch. *)
Definition groupNameOf (fileArray : list File.t) (file : File.t) : JsOpt string :=
  let allPathParts := map (fun f => split "/" (File.webkitRelativePath f)) fileArray in
  let commonRoot := extractCommonRoot allPathParts in
  let pathParts := split "/" (File.webkitRelativePath file) in
  extractFolderName pathParts commonRoot pathParts.

(* ====================================================================== *)
(** ** Sample data *)
(* ====================================================================== *)

Definition file_a : File.t := File.mk "Proj/a.txt" "a.txt".
Definition file_b : File.t := File.mk "Proj/sub/b.txt" "b.txt".
Definition file_deep : File.t := File.mk "Root/Sub/deep.txt" "deep.txt".
Definition file_c : File.t := File.mk "A/B/c.txt" "c.txt".
Definition file_short : File.t := File.mk "P/a" "a".
Definition file_slash : File.t := File.mk "a/" "x".

Definition emptyPage : Page := mkPage (mkState [] false) [].

Definition folder_docs : Folder.t :=
  Folder.mk 1%N "docs" [File.mk "Root/docs/one.txt" "one.txt"] PENDING 0%Z None false.
Definition folder_src : Folder.t :=
  Folder.mk 2%N "src" [File.mk "Root/src/x" "x"; File.mk "Root/src/y" "y"]
            PENDING 0%Z None false.
Definition folder_empty : Folder.t :=
  Folder.mk 3%N "empty" [] PENDING 0%Z None false.
Definition folder_stray : Folder.t :=
  Folder.mk 4%N "a.txt" [file_a] PENDING 0%Z None true.
Definition folder_docs_zipping : Folder.t :=
  Folder.set_status ZIPPING folder_docs.

(** Stop is clicked during the [k]-th await and at no other time. *)
Definition stopAt (k : nat) : nat -> bool := fun j => j =? k.

(* ====================================================================== *)
(** ** UI state, downloads *)
(* ====================================================================== *)

(** The object [calculateUIState()] returns. *)
Record UIState : Type := mkUIState {
  hasFolders : bool;
  hasUnwantedFiles : bool;
  hasPendingFolders : bool;
  hasZippingFolders : bool;
  hasCompletedFolders : bool;
  allZippingComplete : bool
}.

Definition hasStatus (s : FolderStatus) (f : Folder.t) : bool :=
  FolderStatus_eqb (Folder.status f) s.

(** [calculateUIState()]. *)
Definition calculateUIState (st : State) : UIState :=
  let folders := folders st in
  let validFolders := filter (fun f => negb (Folder.isFile f)) folders in
  mkUIState
    (0 <? List.length folders)
    (existsb Folder.isFile folders)
    (existsb (hasStatus PENDING) validFolders)
    (existsb (hasStatus ZIPPING) validFolders)
    (existsb (hasStatus COMPLETE) folders)
    (existsb (hasStatus COMPLETE) folders
     && negb (existsb (hasStatus ZIPPING) validFolders)
     && negb (existsb (hasStatus PENDING) validFolders)).

(** What [updateUI()] decides: which of the elements it manages are
    displayed ([true]) and which are hidden ([display: none]). *)
Record Displayed : Type := mkDisplayed {
  emptyState : bool;
  zipAllBtn : bool;
  cleanupBtn : bool;
  downloadAllBtn : bool;
  clearAllBtn : bool
}.

(** [updateUI()]. *)
Definition updateUI (st : State) : Displayed :=
  let uiState := calculateUIState st in
  mkDisplayed
    (negb (hasFolders uiState))
    (hasPendingFolders uiState && negb (hasZippingFolders uiState))
    (hasUnwantedFiles uiState)
    (allZippingComplete uiState)
    (hasFolders uiState).

(** [downloadZip(folder)]: the call of [triggerDownload] it makes, if any. *)
Definition downloadZip (folder : Folder.t) : option (Blob * string) :=
  match Folder.zipBlob folder with
  | None => None
  | Some blob => Some (blob, (Folder.name folder ++ ".zip")%string)
  end.

(** The outer archive of [downloadAllZips]: the sequence of its
    [mainZip.file(name, blob)] calls. *)
Definition MainZip : Type := list (string * Blob).

(** The loop of [downloadAllZips] ("Add all completed zips to main zip"). *)
Fixpoint downloadAllZips_entries (fs : list Folder.t) : MainZip :=
  match fs with
  | [] => []
  | folder :: rest =>
      match Folder.zipBlob folder with
      | Some blob =>
          ((Folder.name folder ++ ".zip")%string, blob) :: downloadAllZips_entries rest
      | None => downloadAllZips_entries rest
      end
  end.

(** [downloadAllZips()]: the entries of the archive that is generated and
    the file name it is downloaded under. *)
Definition downloadAllZips (st : State) : MainZip * string :=
  (downloadAllZips_entries (folders st), "all_folders.zip"%string).

(* ====================================================================== *)
(** ** Notions used in the statements *)
(* ====================================================================== *)

(** [folderMap.get(key)]. *)
Fixpoint Map_get (m : FolderMap) (key : string) : JsOpt (list File.t) :=
  match m with
  | [] => None
  | (k, fs) :: rest => if String.eqb k key then Some fs else Map_get rest key
  end.

(** The first loop of [processUploadedFiles] for any way [g] of naming a
    file: [groupFile commonRoot] is the step for the naming by
    [extractFolderName]. *)
Definition groupStep (g : File.t -> JsOpt string) (m : FolderMap)
    (file : File.t) : FolderMap :=
  match g file with
  | Some folderName => Map_push m folderName file
  | None => m
  end.

Definition named (g : File.t -> JsOpt string) (key : string)
    (file : File.t) : bool :=
  same_value (g file) (Some key).

(** The folder name [processUploadedFiles] files a file under, as a test. *)
Definition groupedUnder (fileArray : list File.t) (key : string)
    (file : File.t) : bool :=
  same_value (groupNameOf fileArray file) (Some key).

(** Every folder of the registry has its row in the folders list. *)
Definition rowsCover (page : Page) : Prop :=
  forall f, In f (folders (state page)) ->
            hasFolderElement page (Folder.id f) = true.

(** No two folders of the registry have the same name. *)
Definition uniqueNames (st : State) : Prop :=
  NoDup (map Folder.name (folders st)).

(** A folder at rest: pending with progress [0] and no archive, or complete
    with progress [100] and an archive. *)
Definition atRest (f : Folder.t) : Prop :=
  (Folder.status f = PENDING /\ Folder.progress f = 0%Z /\ Folder.zipBlob f = None)
  \/ (Folder.status f = COMPLETE /\ Folder.progress f = 100%Z
      /\ exists blob, Folder.zipBlob f = Some blob).

(** What a zip never changes in a folder. *)
Definition identity (f : Folder.t) : FolderId * string * list File.t * bool :=
  (Folder.id f, Folder.name f, Folder.files f, Folder.isFile f).


(** No folder classified as a file is being zipped: [zipAllFolders] hands
    only folders with [isFile] false to [zipFolder], and [isFile] is fixed
    when the folder is created. *)
Definition unwantedNotZipping (st : State) : Prop :=
  forall f, In f (folders st) -> Folder.isFile f = true ->
            Folder.status f <> ZIPPING.

(** Nobody clicks stop. *)
Definition neverStop : nat -> bool := fun _ => false.

Definition folder_docs_done : Folder.t := zipped folder_docs.

(* ====================================================================== *)
(** * Properties *)
(* ====================================================================== *)

(** ** Runs of the model on small inputs *)

Example split_three : split "/" "Proj/sub/b.txt" = ["Proj"; "sub"; "b.txt"]%string.
Proof. reflexivity. Qed.

Example split_empty : split "/" "" = [""%string].
Proof. reflexivity. Qed.

Example split_trailing_slash : split "/" "a/" = ["a"; ""]%string.
Proof. reflexivity. Qed.

Example isFile_upper_case : isFile "README.MD" = true.
Proof. reflexivity. Qed.

Example isFile_version_folder : isFile "v1.2" = true.
Proof. reflexivity. Qed.

Example isFile_long_suffix : isFile "archive.backup1" = false.
Proof. reflexivity. Qed.

Example extractCommonRoot_siblings :
  extractCommonRoot [["A"; "x.txt"]; ["B"; "y.txt"]]%string = None.
Proof. reflexivity. Qed.

Example extractCommonRoot_one_root :
  extractCommonRoot [["Proj"; "a.txt"]; ["Proj"; "sub"; "b.txt"]]%string = Some "Proj"%string.
Proof. reflexivity. Qed.

Example zipAllFolders_not_stopped :
  zipAllFolders round_percent_exact (fun _ => false)
    (mkState [folder_docs; folder_src; folder_empty] true)
  = mkState [zipped folder_docs; zipped folder_src; zipped folder_empty] false.
Proof. reflexivity. Qed.

Example zipFolder_loop_stop_after_first_file :
  fst (zipFolder_loop round_percent_exact (stopAt 0) 2 0
         (Folder.files folder_src) new_JSZip folder_docs_zipping (mkSched false 0))
  = resetFolderState folder_docs.
Proof. reflexivity. Qed.

(** ** Strings *)

Lemma lower_ascii_dot : forall c, lower_ascii c = "."%char -> c = "."%char.
Proof.
  intros [[] [] [] [] [] [] [] []]; vm_compute; intros E;
    first [reflexivity | discriminate E].
Qed.

Lemma lower_ascii_word : forall c,
  is_word_char c = true -> is_word_char (lower_ascii c) = true.
Proof.
  intros [[] [] [] [] [] [] [] []]; vm_compute; intros E;
    first [reflexivity | discriminate E].
Qed.

Lemma toLowerCase_app : forall a b,
  toLowerCase (a ++ b)%string = (toLowerCase a ++ toLowerCase b)%string.
Proof.
  induction a as [|c a IH]; intros b; simpl; [reflexivity|].
  now rewrite IH.
Qed.

Lemma toLowerCase_length : forall s,
  String.length (toLowerCase s) = String.length s.
Proof.
  induction s as [|c s IH]; simpl; [reflexivity | now rewrite IH].
Qed.

Lemma toLowerCase_all_word : forall s,
  all_word_chars s = true -> all_word_chars (toLowerCase s) = true.
Proof.
  induction s as [|c s IH]; simpl; [reflexivity|].
  intros H. apply andb_true_iff in H as [Hc Hs].
  now rewrite (lower_ascii_word c Hc), (IH Hs).
Qed.

Lemma toLowerCase_no_dot : forall s,
  ~ In "."%char (list_ascii_of_string s) ->
  ~ In "."%char (list_ascii_of_string (toLowerCase s)).
Proof.
  induction s as [|c s IH]; simpl; intros H; [exact H|].
  intros [E|E].
  - apply H. left. now apply lower_ascii_dot.
  - apply IH; [|exact E]. intros F. apply H. now right.
Qed.

Lemma string_app_length : forall a b,
  String.length (a ++ b)%string = String.length a + String.length b.
Proof.
  induction a as [|c a IH]; intros b; simpl; [reflexivity | now rewrite IH].
Qed.

Lemma substring_all : forall s, substring 0 (String.length s) s = s.
Proof.
  induction s as [|c s IH]; simpl; [reflexivity | now rewrite IH].
Qed.

Lemma substring_skip_app : forall a b,
  substring (String.length a) (String.length b) (a ++ b)%string = b.
Proof.
  induction a as [|c a IH]; intros b; simpl.
  - apply substring_all.
  - apply IH.
Qed.

Lemma endsWith_app : forall a b, endsWith (a ++ b)%string b = true.
Proof.
  intros a b. unfold endsWith. rewrite string_app_length.
  replace (String.length a + String.length b <? String.length b) with false
    by (symmetry; apply Nat.ltb_ge; lia).
  replace (String.length a + String.length b - String.length b)
    with (String.length a) by lia.
  rewrite substring_skip_app. apply String.eqb_refl.
Qed.

(** Every character of a substring is a character of the string. *)
Lemma substring_In : forall s k n c,
  In c (list_ascii_of_string (substring k n s)) ->
  In c (list_ascii_of_string s).
Proof.
  induction s as [|d s IH]; intros k n c H.
  - destruct k, n; simpl in H; exact H.
  - destruct k as [|k].
    + destruct n as [|n]; simpl in H; [contradiction|].
      destruct H as [H|H]; [now left | right; eapply IH; exact H].
    + simpl in H. right. eapply IH; exact H.
Qed.

Lemma endsWith_In : forall s ext c,
  endsWith s ext = true ->
  In c (list_ascii_of_string ext) -> In c (list_ascii_of_string s).
Proof.
  intros s ext c H Hc. unfold endsWith in H.
  destruct (String.length s <? String.length ext); [discriminate|].
  apply String.eqb_eq in H. rewrite <- H in Hc.
  eapply substring_In; exact Hc.
Qed.

Lemma test_dot_word_1_5_end_In : forall s,
  test_dot_word_1_5_end s = true -> In "."%char (list_ascii_of_string s).
Proof.
  induction s as [|c s IH]; simpl; intros H; [discriminate|].
  apply orb_true_iff in H as [H|H].
  - apply andb_true_iff in H as [H _]. apply Ascii.eqb_eq in H. now left.
  - right. now apply IH.
Qed.

Lemma test_dot_word_1_5_end_app : forall stem w,
  word_1_5_then_end w = true ->
  test_dot_word_1_5_end (stem ++ String "." w)%string = true.
Proof.
  induction stem as [|c stem IH]; intros w H; simpl.
  - now rewrite H.
  - rewrite (IH w H). apply orb_true_r.
Qed.

Lemma SUPPORTED_FILE_EXTENSIONS_dot : forall ext,
  In ext SUPPORTED_FILE_EXTENSIONS -> In "."%char (list_ascii_of_string ext).
Proof.
  intros ext H. unfold SUPPORTED_FILE_EXTENSIONS in H.
  repeat (destruct H as [<-|H]; [now left|]). contradiction.
Qed.

(** ** The classifier *)

(** C9. [isFile] answers "file" for every entry of the extension table, and
    for every name that ends, whatever the case of its letters, with an entry
    of the table; it answers "file" for every name made of any stem, a dot
    and one to five word characters; it answers "folder" for every name
    without a dot. *)
Theorem isFile_classifies :
  (forall ext, In ext SUPPORTED_FILE_EXTENSIONS -> isFile ext = true) /\
  (forall stem e, In (toLowerCase e) SUPPORTED_FILE_EXTENSIONS ->
      isFile (stem ++ e)%string = true) /\
  (forall stem w,
      1 <= String.length w <= 5 ->
      Forall (fun c => is_word_char c = true) (list_ascii_of_string w) ->
      isFile (stem ++ String "." w)%string = true) /\
  (forall name,
      ~ In "."%char (list_ascii_of_string name) -> isFile name = false).
Proof.
  repeat split.
  - intros ext H. unfold SUPPORTED_FILE_EXTENSIONS in H.
    repeat (destruct H as [<-|H]; [reflexivity|]). contradiction.
  - intros stem e H. unfold isFile.
    apply orb_true_iff; left. apply existsb_exists.
    exists (toLowerCase e). split; [exact H|].
    rewrite toLowerCase_app. apply endsWith_app.
  - intros stem w [Hlo Hhi] Hw. unfold isFile.
    apply orb_true_iff; right.
    change (String "." w) with ("." ++ w)%string.
    rewrite toLowerCase_app. simpl.
    change (lower_ascii ".") with "."%char.
    apply test_dot_word_1_5_end_app. unfold word_1_5_then_end.
    rewrite toLowerCase_length.
    apply andb_true_iff; split; [apply andb_true_iff; split|].
    + now apply Nat.leb_le.
    + now apply Nat.leb_le.
    + apply toLowerCase_all_word. clear Hlo Hhi.
      induction w as [|c w IH]; simpl; [reflexivity|].
      simpl in Hw. inversion Hw as [|? ? Hc Hrest]; subst.
      rewrite Hc. simpl. now apply IH.
  - intros name Hno. unfold isFile.
    apply orb_false_iff; split.
    + apply not_true_is_false. intros H.
      apply existsb_exists in H as [ext [Hin Hends]].
      apply (toLowerCase_no_dot name Hno).
      eapply endsWith_In; [exact Hends|].
      now apply SUPPORTED_FILE_EXTENSIONS_dot.
    + apply not_true_is_false. intros H.
      apply (toLowerCase_no_dot name Hno).
      now apply test_dot_word_1_5_end_In.
Qed.

Lemma isFile_classifies_witness :
  isFile ".docx" = true /\ isFile "Report.DOCX" = true /\
  isFile "notes.Rb_1" = true /\ isFile "src" = false.
Proof.
  destruct isFile_classifies as [H1 [H2 [H3 H4]]].
  split; [|split; [|split]].
  - apply (H1 ".docx"). vm_compute. tauto.
  - apply (H2 "Report" ".DOCX"). vm_compute. tauto.
  - apply (H3 "notes" "Rb_1").
    + simpl. lia.
    + simpl. repeat constructor.
  - apply (H4 "src"). simpl.
    intros [E|[E|[E|[]]]]; discriminate E.
Defined.

(** ** Grouping of an uploaded batch *)

Lemma split_not_nil : forall sep s, split sep s <> [].
Proof.
  intros sep s. destruct s as [|c s]; simpl; [discriminate|].
  destruct (Ascii.eqb c sep); [discriminate|].
  destruct (split sep s); discriminate.
Qed.

(** The branch of [groupFile] for an undefined folder name is never taken:
    on the parts of a path [extractFolderName] always returns a string. *)
Lemma extractFolderName_split_defined : forall path commonRoot,
  exists folderName,
    extractFolderName (split "/" path) commonRoot (split "/" path)
    = Some folderName.
Proof.
  intros path commonRoot. unfold extractFolderName.
  pose proof (split_not_nil "/" path) as Hne.
  destruct (split "/" path) as [|p [|q parts]]; [contradiction| |].
  - exists p. simpl. now rewrite andb_false_r.
  - destruct (truthy commonRoot
              && existsb (fun parts0 => 1 <? js_length parts0) (p :: q :: parts)
              && (1 <? List.length (p :: q :: parts))).
    + now exists q.
    + now exists p.
Qed.

(** C1. For the batch of the two files [Proj/a.txt] and [Proj/sub/b.txt] the
    grouping loop of [processUploadedFiles] builds exactly two groups, in
    this order: one named [a.txt] that holds the first file and one named
    [sub] that holds the second; added to an empty page they become two
    pending folders, the first one classified as a file. *)
Theorem processUploadedFiles_proj_groups :
  processUploadedFiles_folderMap [file_a; file_b]
    = [("a.txt", [file_a]); ("sub", [file_b])]
  /\ forall ids,
       folders (state (processUploadedFiles ids [file_a; file_b] emptyPage))
       = [ Folder.mk (ids 0) "a.txt" [file_a] PENDING 0%Z None true;
           Folder.mk (ids 1) "sub" [file_b] PENDING 0%Z None false ].
Proof.
  split; [reflexivity | intros ids; reflexivity].
Qed.

(** The batch of C1 has no group named [Proj]: the claim that it yields the
    groups [Proj] (with [a.txt]) and [sub] (with [b.txt]) fails, in whatever
    order the groups are listed. *)
Lemma processUploadedFiles_proj_not_Proj :
  ~ Permutation (processUploadedFiles_folderMap [file_a; file_b])
                [("Proj", [file_a]); ("sub", [file_b])].
Proof.
  intros Hperm.
  assert (Hin : In ("Proj", [file_a]) (processUploadedFiles_folderMap [file_a; file_b])).
  { eapply Permutation_in.
    - apply Permutation_sym. exact Hperm.
    - now left. }
  vm_compute in Hin.
  destruct Hin as [E|[E|[]]]; discriminate E.
Qed.

Lemma same_value_refl : forall v, same_value v v = true.
Proof. intros [s|]; simpl; [apply String.eqb_refl | reflexivity]. Qed.

Lemma Set_add_all_length : forall xs members,
  List.length members <= List.length (Set_add_all members xs).
Proof.
  induction xs as [|x xs IH]; intros members; simpl; [lia|].
  destruct (existsb (same_value x) members).
  - apply IH.
  - specialize (IH (members ++ [x])). rewrite length_app in IH. simpl in IH. lia.
Qed.

Lemma Set_add_all_single : forall xs x,
  (List.length (Set_add_all [x] xs) =? 1)
  = forallb (fun y => same_value y x) xs.
Proof.
  induction xs as [|y xs IH]; intros x; simpl; [reflexivity|].
  rewrite orb_false_r. destruct (same_value y x); simpl.
  - apply IH.
  - apply Nat.eqb_neq.
    pose proof (Set_add_all_length xs [x; y]) as Hlen. simpl in Hlen. lia.
Qed.

(** [extractCommonRoot] finds a root exactly when the batch is not empty and
    all its paths start with the same segment. *)
Lemma extractCommonRoot_spec : forall batch,
  extractCommonRoot batch
  = if spec_hasCommonRoot batch
    then match batch with first :: _ => at0 first | [] => None end
    else None.
Proof.
  intros [|first rest]; [reflexivity|].
  unfold extractCommonRoot, spec_hasCommonRoot, Set_of. simpl map.
  simpl Set_add_all. rewrite Set_add_all_single.
  replace (forallb (fun y => same_value y (at0 first)) (map at0 rest))
    with (forallb (fun parts => same_value (at0 parts) (at0 first)) rest);
    [reflexivity|].
  induction rest as [|p rest IH]; simpl; [reflexivity | now rewrite IH].
Qed.

(** Called as its documentation says, with the paths of the whole batch as
    third argument, [extractFolderName] follows the rule of the
    specification on every batch whose paths start with a non-empty
    segment. *)
Lemma extractFolderName_documented : forall batch entry,
  (forall parts, In parts batch ->
     exists seg rest, parts = seg :: rest /\ seg <> ""%string) ->
  extractFolderName entry (extractCommonRoot batch) batch
  = spec_groupName batch entry.
Proof.
  intros batch entry Hhead.
  unfold extractFolderName, spec_groupName.
  rewrite extractCommonRoot_spec.
  destruct (spec_hasCommonRoot batch) eqn:Hroot; [|reflexivity].
  destruct batch as [|first rest]; [discriminate Hroot|].
  destruct (Hhead first (or_introl eq_refl)) as [seg [tl [-> Hseg]]].
  simpl at0. destruct seg; [contradiction|]. reflexivity.
Qed.

(** C2. On the batch of the single file [P/a] the script computes the group
    name [P], its first segment, although a common root exists and the
    path has two segments: the rule of the claim gives [a].  The call in
    [processUploadedFiles] hands the segments of the current file to
    [extractFolderName] where the paths of the batch are expected, so
    "some path has more than one segment" is evaluated as "some segment of
    this path has more than one character". *)
Theorem groupNameOf_single_character_segments :
  groupNameOf [file_short] file_short = Some "P"
  /\ spec_groupName [split "/" "P/a"] (split "/" "P/a") = Some "a"
  /\ extractFolderName (split "/" "P/a")
       (extractCommonRoot [split "/" "P/a"]) [split "/" "P/a"] = Some "a"
  /\ processUploadedFiles_folderMap [file_short] = [("P", [file_short])].
Proof.
  repeat split; reflexivity.
Qed.

(** ** Relative paths inside an archive *)

Lemma indexOf_lower_bound : forall parts x, (-1 <= indexOf parts x)%Z.
Proof.
  induction parts as [|p parts IH]; intros x; simpl; [lia|].
  destruct (String.eqb p x); [lia|].
  specialize (IH x). destruct (indexOf parts x <? 0)%Z eqn:E; lia.
Qed.

Lemma indexOf_absent : forall parts x,
  ~ In x parts -> indexOf parts x = (-1)%Z.
Proof.
  induction parts as [|p parts IH]; intros x H; simpl; [reflexivity|].
  destruct (String.eqb p x) eqn:E.
  - apply String.eqb_eq in E. exfalso. apply H. now left.
  - rewrite IH; [reflexivity|]. intros F. apply H. now right.
Qed.

Lemma indexOf_first : forall pre x post,
  ~ In x pre -> indexOf (pre ++ x :: post) x = Z.of_nat (List.length pre).
Proof.
  induction pre as [|p pre IH]; intros x post H.
  - simpl. now rewrite String.eqb_refl.
  - change ((p :: pre) ++ x :: post) with (p :: (pre ++ x :: post)).
    cbn [indexOf].
    destruct (String.eqb p x) eqn:E.
    + apply String.eqb_eq in E. exfalso. apply H. now left.
    + rewrite IH by (intros F; apply H; now right).
      replace (Z.of_nat (List.length pre) <? 0)%Z with false
        by (symmetry; apply Z.ltb_ge; lia).
      cbn [List.length]. lia.
Qed.

Lemma slice_after : forall (pre : list string) x post,
  slice (Z.of_nat (List.length pre) + 1) (pre ++ x :: post) = post.
Proof.
  intros pre x post. unfold slice.
  replace (Z.to_nat (Z.of_nat (List.length pre) + 1)) with (S (List.length pre)) by lia.
  induction pre as [|p pre IH]; simpl; [reflexivity | exact IH].
Qed.

Lemma slice_1 : forall parts : list string, slice 1 parts = tl parts.
Proof. intros [|p parts]; reflexivity. Qed.


Lemma calculateRelativePath_match : forall file folderName pre post,
  split "/" (File.webkitRelativePath file) = pre ++ folderName :: post ->
  ~ In folderName pre ->
  calculateRelativePath file folderName
  = or_else (join "/" post) (File.name file).
Proof.
  intros file folderName pre post Hparts Hpre.
  unfold calculateRelativePath. rewrite Hparts.
  rewrite (indexOf_first pre folderName post Hpre).
  replace (0 <=? Z.of_nat (List.length pre))%Z with true
    by (symmetry; apply Z.leb_le; lia).
  now rewrite slice_after.
Qed.

Lemma calculateRelativePath_absent_nested : forall file folderName,
  ~ In folderName (split "/" (File.webkitRelativePath file)) ->
  1 < List.length (split "/" (File.webkitRelativePath file)) ->
  calculateRelativePath file folderName
  = or_else (join "/" (tl (split "/" (File.webkitRelativePath file))))
            (File.name file).
Proof.
  intros file folderName Habs Hlen. unfold calculateRelativePath.
  rewrite (indexOf_absent _ folderName Habs).
  simpl (0 <=? -1)%Z.
  replace (1 <? List.length (split "/" (File.webkitRelativePath file))) with true
    by (symmetry; apply Nat.ltb_lt; exact Hlen).
  now rewrite slice_1.
Qed.

Lemma calculateRelativePath_absent_single : forall file folderName,
  ~ In folderName (split "/" (File.webkitRelativePath file)) ->
  List.length (split "/" (File.webkitRelativePath file)) <= 1 ->
  calculateRelativePath file folderName = File.name file.
Proof.
  intros file folderName Habs Hlen. unfold calculateRelativePath.
  rewrite (indexOf_absent _ folderName Habs).
  simpl (0 <=? -1)%Z.
  replace (1 <? List.length (split "/" (File.webkitRelativePath file))) with false
    by (symmetry; apply Nat.ltb_ge; exact Hlen).
  reflexivity.
Qed.

(** For any object with a path and a name, [calculateRelativePath]
    returns, when some segment of the path equals the folder name, the segments after the first such
    segment joined by a slash, or the name of the file when that string is
    empty; when no segment equals the folder name and the path has more
    than one segment, the segments after the first joined by a slash, or
    the name of the file when that string is empty; when no segment equals
    the folder name and the path has one segment, the name of the file.
    The file [Root/Sub/deep.txt] in the folder [Sub] gets [deep.txt], the
    file [A/B/c.txt] in a folder that none of its segments names gets
    [B/c.txt]. *)
Theorem calculateRelativePath_cases :
  (forall file folderName,
     let parts := split "/" (File.webkitRelativePath file) in
     (forall pre post,
        parts = pre ++ folderName :: post -> ~ In folderName pre ->
        calculateRelativePath file folderName
        = or_else (join "/" post) (File.name file))
     /\ (~ In folderName parts -> 1 < List.length parts ->
         calculateRelativePath file folderName
         = or_else (join "/" (tl parts)) (File.name file))
     /\ (~ In folderName parts -> List.length parts <= 1 ->
         calculateRelativePath file folderName = File.name file))
  /\ calculateRelativePath file_deep "Sub" = "deep.txt"%string
  /\ calculateRelativePath file_c "Photos" = "B/c.txt"%string.
Proof.
  split; [|split; reflexivity].
  intros file folderName parts. split; [|split].
  - intros pre post Hparts Hpre.
    now apply calculateRelativePath_match with (pre := pre).
  - apply calculateRelativePath_absent_nested.
  - apply calculateRelativePath_absent_single.
Qed.

Lemma calculateRelativePath_cases_witness :
  calculateRelativePath file_deep "Sub"
    = or_else (join "/" ["deep.txt"%string]) "deep.txt"
  /\ calculateRelativePath file_c "Photos"
    = or_else (join "/" ["B"%string; "c.txt"%string]) "c.txt"
  /\ calculateRelativePath (File.mk "" "solo.txt") "Photos" = "solo.txt"%string.
Proof.
  destruct calculateRelativePath_cases as [H _].
  split; [|split].
  - destruct (H file_deep "Sub"%string) as [H1 _].
    apply (H1 ["Root"%string] ["deep.txt"%string]); [reflexivity|].
    simpl. intros [E|[]]; discriminate E.
  - destruct (H file_c "Photos"%string) as [_ [H2 _]].
    apply H2; [|simpl; lia].
    simpl. intros [E|[E|[E|[]]]]; discriminate E.
  - destruct (H (File.mk "" "solo.txt") "Photos"%string) as [_ [_ H3]].
    apply H3; [|simpl; lia].
    simpl. intros [E|[]]; discriminate E.
Defined.


(** ** The registry of folders *)

Lemma existsb_name_true : forall (fs : list Folder.t) name,
  (exists folder, In folder fs /\ Folder.name folder = name) ->
  existsb (fun folder => String.eqb (Folder.name folder) name) fs = true.
Proof.
  intros fs name [folder [Hin Hname]]. apply existsb_exists.
  exists folder. split; [exact Hin | now apply String.eqb_eq].
Qed.

Lemma existsb_name_false : forall (fs : list Folder.t) name,
  (forall folder, In folder fs -> Folder.name folder <> name) ->
  existsb (fun folder => String.eqb (Folder.name folder) name) fs = false.
Proof.
  intros fs name H. apply not_true_is_false. intros E.
  apply existsb_exists in E as [folder [Hin Hname]].
  apply String.eqb_eq in Hname. exact (H folder Hin Hname).
Qed.

(** C7. When a folder of the registry already has the given name,
    [addFolder] changes nothing: the registry, each of its folders, the flag
    and the rows stay as they are, and the files handed over are dropped.
    When no folder has the name, one folder is appended, with the new id,
    the name and the files, status [PENDING], progress [0], no archive, and
    the verdict of [isFile] on the name. *)
Theorem addFolder_duplicate_or_append : forall newId name files page,
  ((exists folder, In folder (folders (state page)) /\ Folder.name folder = name) ->
     addFolder newId name files page = page)
  /\ ((forall folder, In folder (folders (state page)) -> Folder.name folder <> name) ->
      folders (state (addFolder newId name files page))
      = folders (state page)
          ++ [Folder.mk newId name files PENDING 0%Z None (isFile name)]
      /\ shouldStopZipping (state (addFolder newId name files page))
         = shouldStopZipping (state page)).
Proof.
  intros newId name files page. unfold addFolder. split.
  - intros H. now rewrite (existsb_name_true _ _ H).
  - intros H. rewrite (existsb_name_false _ _ H). split; reflexivity.
Qed.

Lemma addFolder_duplicate_or_append_witness :
  let page := mkPage (mkState [folder_docs] false) [1%N] in
  addFolder 9%N "docs" [file_a] page = page
  /\ folders (state (addFolder 9%N "notes.txt" [file_a] page))
     = [folder_docs; Folder.mk 9%N "notes.txt" [file_a] PENDING 0%Z None true].
Proof.
  intros page. split.
  - apply (proj1 (addFolder_duplicate_or_append 9%N "docs" [file_a] page)).
    exists folder_docs. split; [now left | reflexivity].
  - apply (proj2 (addFolder_duplicate_or_append 9%N "notes.txt" [file_a] page)).
    intros folder [<-|[]]. discriminate.
Defined.

(** The two guards of [removeFolder]: it changes nothing for a folder whose status is
    [ZIPPING].  For a folder in another status whose row is in the folders
    list, it removes from the registry every folder with the id of that
    folder and keeps the others, in order; when the row is not in the
    folders list it changes nothing. *)
Theorem removeFolder_guards : forall folder page,
  (Folder.status folder = ZIPPING -> removeFolder folder page = page)
  /\ (Folder.status folder <> ZIPPING ->
      hasFolderElement page (Folder.id folder) = true ->
      folders (state (removeFolder folder page))
      = filter (fun f => negb (N.eqb (Folder.id f) (Folder.id folder)))
               (folders (state page))
      /\ ~ In folder (folders (state (removeFolder folder page)))
      /\ (forall f, In f (folders (state page)) ->
            Folder.id f <> Folder.id folder ->
            In f (folders (state (removeFolder folder page))))
      /\ shouldStopZipping (state (removeFolder folder page))
         = shouldStopZipping (state page))
  /\ (Folder.status folder <> ZIPPING ->
      hasFolderElement page (Folder.id folder) = false ->
      removeFolder folder page = page).
Proof.
  intros folder page. unfold removeFolder. split; [|split].
  - intros ->. reflexivity.
  - intros Hst Hrow.
    destruct (Folder.status folder); try contradiction; simpl;
      rewrite Hrow; simpl.
    all: split; [reflexivity|]; split; [|split; [|reflexivity]].
    all: try (intros Hin; apply filter_In in Hin as [_ Hid];
              rewrite N.eqb_refl in Hid; discriminate Hid).
    all: intros f Hin Hid; apply filter_In; split; [exact Hin|];
         apply negb_true_iff; now apply N.eqb_neq.
  - intros Hst Hrow.
    destruct (Folder.status folder); try contradiction; simpl;
      now rewrite Hrow.
Qed.

Lemma removeFolder_guards_witness :
  let page := mkPage (mkState [folder_docs_zipping; folder_src] true) [1%N; 2%N] in
  removeFolder folder_docs_zipping page = page
  /\ folders (state (removeFolder folder_src page)) = [folder_docs_zipping]
  /\ removeFolder folder_empty page = page.
Proof.
  intros page. split; [|split].
  - apply (proj1 (removeFolder_guards folder_docs_zipping page)). reflexivity.
  - apply (proj1 (proj1 (proj2 (removeFolder_guards folder_src page)) ltac:(discriminate) eq_refl)).
  - apply (proj2 (proj2 (removeFolder_guards folder_empty page)));
      [discriminate | reflexivity].
Defined.

Lemma filter_none_negb : forall (p : Folder.t -> bool) fs,
  List.length (filter p fs) = 0 -> filter (fun f => negb (p f)) fs = fs.
Proof.
  induction fs as [|f fs IH]; simpl; intros H; [reflexivity|].
  destruct (p f); simpl in *; [discriminate H | now rewrite IH].
Qed.

(** On any state, [removeUnwantedFiles] removes from the registry every folder
    classified as a file, whatever its status, and keeps every other
    folder, in order; the flag and the rows are as before. *)
Theorem removeUnwantedFiles_removes_all : forall page,
  folders (state (removeUnwantedFiles page))
  = filter (fun f => negb (Folder.isFile f)) (folders (state page))
  /\ (forall f, In f (folders (state (removeUnwantedFiles page)))
        <-> In f (folders (state page)) /\ Folder.isFile f = false)
  /\ shouldStopZipping (state (removeUnwantedFiles page))
     = shouldStopZipping (state page)
  /\ foldersList (removeUnwantedFiles page) = foldersList page.
Proof.
  intros page.
  assert (E : folders (state (removeUnwantedFiles page))
              = filter (fun f => negb (Folder.isFile f)) (folders (state page))).
  { unfold removeUnwantedFiles.
    destruct (List.length (filter Folder.isFile (folders (state page))) =? 0) eqn:H.
    - apply Nat.eqb_eq in H. now rewrite filter_none_negb.
    - reflexivity. }
  split; [exact E|]. split; [|split].
  - intros f. rewrite E, filter_In, negb_true_iff. reflexivity.
  - unfold removeUnwantedFiles.
    now destruct (List.length (filter Folder.isFile (folders (state page))) =? 0).
  - unfold removeUnwantedFiles.
    now destruct (List.length (filter Folder.isFile (folders (state page))) =? 0).
Qed.

(** ** The zip operations *)

Section ZipFolderFacts.

Variable round_percent : nat -> nat -> Z.
Variable env : nat -> bool.

Lemma resetFolderState_set_progress : forall p folder,
  resetFolderState (Folder.set_progress p folder) = resetFolderState folder.
Proof. reflexivity. Qed.

Lemma resetFolderState_set_status : forall st folder,
  resetFolderState (Folder.set_status st folder) = resetFolderState folder.
Proof. reflexivity. Qed.

(** With the flag set, the loop of [zipFolder] leaves through a reset, at
    its first test or, after the last file, at the test before the
    generation. *)
Lemma zipFolder_loop_stopped : forall totalFiles i rest zip folder s,
  stopFlag s = true ->
  zipFolder_loop round_percent env totalFiles i rest zip folder s
  = (resetFolderState folder, s).
Proof.
  intros totalFiles i [|file rest] zip folder s H; simpl.
  - unfold zipFolder_generate. now rewrite H.
  - now rewrite H.
Qed.

(** No stop during the waits after the files: every file enters the
    archive, the archive is generated and the folder is complete, also
    when stop is clicked during the generation. *)
Lemma zipFolder_loop_run : forall rest totalFiles i zip folder s,
  stopFlag s = false ->
  (forall k, k < List.length rest -> env (awaits s + k) = false) ->
  zipFolder_loop round_percent env totalFiles i rest zip folder s
  = (Folder.mk (Folder.id folder) (Folder.name folder) (Folder.files folder)
               COMPLETE 100%Z
               (Some (generateAsync (zip ++ zipEntries (Folder.name folder) rest)))
               (Folder.isFile folder),
     mkSched (env (awaits s + List.length rest))
             (S (awaits s + List.length rest))).
Proof.
  induction rest as [|file rest IH]; intros totalFiles i zip folder s Hs Henv.
  - simpl. unfold zipFolder_generate, await. rewrite Hs. simpl.
    rewrite app_nil_r, Nat.add_0_r. reflexivity.
  - cbn [zipFolder_loop]. rewrite Hs.
    assert (H0 : env (awaits s) = false).
    { specialize (Henv 0). rewrite Nat.add_0_r in Henv. apply Henv. simpl. lia. }
    rewrite IH.
    + unfold await, zip_file. cbn [awaits stopFlag Folder.set_progress
        Folder.id Folder.name Folder.files Folder.isFile zipEntries map List.length].
      rewrite <- app_assoc. cbn [app].
      replace (S (awaits s) + List.length rest) with (awaits s + S (List.length rest)) by lia.
      reflexivity.
    + unfold await. simpl. now rewrite Hs, H0.
    + intros k Hk. unfold await. cbn [awaits].
      replace (S (awaits s) + k) with (awaits s + S k) by lia.
      apply Henv. simpl. lia.
Qed.

(** A stop during the wait after one of the files: the folder is reset. *)
Lemma zipFolder_loop_interrupted : forall rest totalFiles i zip folder s,
  stopFlag s = false ->
  (exists k, k < List.length rest /\ env (awaits s + k) = true) ->
  exists s',
    zipFolder_loop round_percent env totalFiles i rest zip folder s
    = (resetFolderState folder, s')
    /\ stopFlag s' = true.
Proof.
  induction rest as [|file rest IH]; intros totalFiles i zip folder s Hs [k [Hk Hstop]].
  - simpl in Hk. lia.
  - cbn [zipFolder_loop]. rewrite Hs.
    destruct (env (awaits s)) eqn:H0.
    + exists (await env s). rewrite zipFolder_loop_stopped.
      * split; [reflexivity|]. unfold await. simpl. now rewrite H0, orb_true_r.
      * unfold await. simpl. now rewrite H0, orb_true_r.
    + destruct k as [|k]; [rewrite Nat.add_0_r in Hstop; congruence|].
      destruct (IH totalFiles (S i)
                   (zip_file zip (calculateRelativePath file (Folder.name folder)) file)
                   (Folder.set_progress (round_percent (i + 1) totalFiles) folder)
                   (await env s)) as [s' [E Hs']].
      * unfold await. simpl. now rewrite Hs, H0.
      * exists k. split; [simpl in Hk; lia|].
        unfold await. cbn [awaits].
        replace (S (awaits s) + k) with (awaits s + S k) by lia. exact Hstop.
      * exists s'. split; [|exact Hs']. rewrite E. reflexivity.
Qed.

Lemma zipFolder_loop_status : forall rest totalFiles i zip folder s,
  Folder.status (fst (zipFolder_loop round_percent env totalFiles i rest zip folder s))
  <> ZIPPING.
Proof.
  induction rest as [|file rest IH]; intros totalFiles i zip folder s.
  - simpl. unfold zipFolder_generate.
    destruct (stopFlag s); simpl; discriminate.
  - cbn [zipFolder_loop]. destruct (stopFlag s); [simpl; discriminate|].
    apply IH.
Qed.

Lemma zipFolder_status : forall folder s,
  Folder.status (fst (zipFolder round_percent env folder s)) <> ZIPPING.
Proof.
  intros folder s. unfold zipFolder.
  destruct (stopFlag s); [simpl; discriminate|].
  apply zipFolder_loop_status.
Qed.

Lemma zipFolder_run : forall folder s,
  stopFlag s = false ->
  (forall k, k < List.length (Folder.files folder) -> env (awaits s + k) = false) ->
  zipFolder round_percent env folder s
  = (zipped folder,
     mkSched (env (awaits s + List.length (Folder.files folder)))
             (S (awaits s + List.length (Folder.files folder)))).
Proof.
  intros folder s Hs Henv. unfold zipFolder. rewrite Hs.
  rewrite zipFolder_loop_run by assumption. reflexivity.
Qed.

Lemma zipFolder_interrupted : forall folder s,
  stopFlag s = false ->
  (exists k, k < List.length (Folder.files folder) /\ env (awaits s + k) = true) ->
  exists s',
    zipFolder round_percent env folder s = (resetFolderState folder, s')
    /\ stopFlag s' = true.
Proof.
  intros folder s Hs Hk. unfold zipFolder. rewrite Hs.
  destruct (zipFolder_loop_interrupted (Folder.files folder)
              (List.length (Folder.files folder)) 0 new_JSZip
              (Folder.set_status ZIPPING folder) s Hs Hk) as [s' [E Hs']].
  exists s'. split; [|exact Hs'].
  change (Folder.files (Folder.set_status ZIPPING folder)) with (Folder.files folder).
  cbv zeta. rewrite E. reflexivity.
Qed.

(** Once the flag is set, the loop of [zipAllFolders] leaves at once. *)
Lemma zipAllFolders_loop_stopped : forall fs s,
  stopFlag s = true ->
  zipAllFolders_loop round_percent env fs s = (fs, s).
Proof.
  intros [|folder rest] s H; simpl; [reflexivity | now rewrite H].
Qed.

(** As long as nobody clicks stop, the loop zips the pending folders one
    after the other. *)
Lemma zipAllFolders_loop_prefix : forall pre rest a,
  (forall k, k < awaits_of pre -> env (a + k) = false) ->
  zipAllFolders_loop round_percent env (pre ++ rest) (mkSched false a)
  = (map zippedIfPending pre
       ++ fst (zipAllFolders_loop round_percent env rest
                 (mkSched false (a + awaits_of pre))),
     snd (zipAllFolders_loop round_percent env rest
            (mkSched false (a + awaits_of pre)))).
Proof.
  induction pre as [|folder pre IH]; intros rest a Henv.
  - simpl. rewrite Nat.add_0_r.
    now destruct (zipAllFolders_loop round_percent env rest (mkSched false a)).
  - change ((folder :: pre) ++ rest) with (folder :: (pre ++ rest)).
    cbn [zipAllFolders_loop stopFlag map awaits_of]. unfold zippedIfPending at 1.
    destruct (isPendingFolder folder) eqn:Hp.
    + rewrite zipFolder_run; cbn [stopFlag awaits].
      * assert (Hn : env (a + List.length (Folder.files folder)) = false).
        { apply Henv. simpl. rewrite Hp. lia. }
        rewrite Hn.
        rewrite (IH rest (S (a + List.length (Folder.files folder)))).
        -- replace (S (a + List.length (Folder.files folder)) + awaits_of pre)
             with (a + (S (List.length (Folder.files folder)) + awaits_of pre)) by lia.
           reflexivity.
        -- intros k Hk.
           replace (S (a + List.length (Folder.files folder)) + k)
             with (a + (S (List.length (Folder.files folder)) + k)) by lia.
           apply Henv. simpl. rewrite Hp. lia.
      * reflexivity.
      * intros k Hk. apply Henv. simpl. rewrite Hp. lia.
    + rewrite (IH rest a).
      * reflexivity.
      * intros k Hk. apply Henv. simpl. rewrite Hp. simpl. exact Hk.
Qed.

(** A run that nobody stops passes [awaits_of fs] awaits. *)
Lemma zipAllFolders_loop_awaits : forall fs a,
  (forall k, k < awaits_of fs -> env (a + k) = false) ->
  zipAllFolders_loop round_percent env fs (mkSched false a)
  = (map zippedIfPending fs, mkSched false (a + awaits_of fs)).
Proof.
  intros fs a Henv.
  pose proof (zipAllFolders_loop_prefix fs [] a Henv) as H.
  rewrite app_nil_r in H. rewrite H. simpl. now rewrite app_nil_r.
Qed.

Lemma zipFolder_loop_isFile : forall rest totalFiles i zip folder s,
  Folder.isFile (fst (zipFolder_loop round_percent env totalFiles i rest zip folder s))
  = Folder.isFile folder.
Proof.
  induction rest as [|file rest IH]; intros totalFiles i zip folder s.
  - simpl. unfold zipFolder_generate. now destruct (stopFlag s).
  - cbn [zipFolder_loop]. destruct (stopFlag s); [reflexivity|].
    now rewrite IH.
Qed.

(** The loop of [zipAllFolders] never touches a folder classified as a
    file: such a folder is as it was, so it cannot get status [ZIPPING]. *)
Lemma zipAllFolders_loop_keeps_unwanted : forall fs s f,
  In f (fst (zipAllFolders_loop round_percent env fs s)) ->
  Folder.isFile f = true -> In f fs.
Proof.
  induction fs as [|folder rest IH]; intros s f Hin Hf; [destruct Hin|].
  cbn [zipAllFolders_loop] in Hin.
  destruct (stopFlag s); [exact Hin|].
  destruct (isPendingFolder folder) eqn:Hp.
  - assert (Hz : Folder.isFile (fst (zipFolder round_percent env folder s))
                 = Folder.isFile folder).
    { unfold zipFolder. destruct (stopFlag s); [reflexivity|].
      now rewrite zipFolder_loop_isFile. }
    destruct (zipFolder round_percent env folder s) as [folder' s'].
    specialize (IH s' f).
    destruct (zipAllFolders_loop round_percent env rest s') as [rest' s''].
    destruct Hin as [<-|Hin].
    + simpl in Hz. unfold isPendingFolder in Hp.
      rewrite <- Hz, Hf, andb_false_r in Hp. discriminate Hp.
    + right. now apply IH.
  - specialize (IH s f).
    destruct (zipAllFolders_loop round_percent env rest s) as [rest' s''].
    destruct Hin as [<-|Hin]; [now left | right; now apply IH].
Qed.

Lemma zipAllFolders_loop_status : forall fs s,
  (forall f, In f fs -> Folder.status f <> ZIPPING) ->
  forall f, In f (fst (zipAllFolders_loop round_percent env fs s)) ->
            Folder.status f <> ZIPPING.
Proof.
  induction fs as [|folder rest IH]; intros s Hall f Hin; [destruct Hin|].
  cbn [zipAllFolders_loop] in Hin.
  destruct (stopFlag s); [now apply Hall|].
  destruct (isPendingFolder folder).
  - pose proof (zipFolder_status folder s) as Hz.
    destruct (zipFolder round_percent env folder s) as [folder' s'].
    specialize (IH s' (fun g Hg => Hall g (or_intror Hg)) f).
    destruct (zipAllFolders_loop round_percent env rest s') as [rest' s''].
    destruct Hin as [<-|Hin]; [exact Hz | now apply IH].
  - specialize (IH s (fun g Hg => Hall g (or_intror Hg)) f).
    destruct (zipAllFolders_loop round_percent env rest s) as [rest' s''].
    destruct Hin as [<-|Hin]; [apply Hall; now left | now apply IH].
Qed.

Lemma validateAndHighlightFiles_true : forall st,
  (exists f, In f (folders st) /\ Folder.isFile f = true) ->
  validateAndHighlightFiles st = true.
Proof.
  intros st [f [Hin Hf]]. unfold validateAndHighlightFiles.
  assert (H : In f (filter Folder.isFile (folders st)))
    by (apply filter_In; split; assumption).
  destruct (filter Folder.isFile (folders st)); [destruct H | reflexivity].
Qed.

Lemma validateAndHighlightFiles_false : forall st,
  (forall f, In f (folders st) -> Folder.isFile f = false) ->
  validateAndHighlightFiles st = false.
Proof.
  intros st H. unfold validateAndHighlightFiles.
  destruct (filter Folder.isFile (folders st)) as [|f l] eqn:E; [reflexivity|].
  assert (Hin : In f (filter Folder.isFile (folders st))) by (rewrite E; now left).
  apply filter_In in Hin as [Hin Hf]. rewrite (H f Hin) in Hf. discriminate Hf.
Qed.

End ZipFolderFacts.

Lemma resetFolderState_fields : forall folder,
  resetFolderState folder
  = Folder.mk (Folder.id folder) (Folder.name folder) (Folder.files folder)
              PENDING 0%Z (Folder.zipBlob folder) (Folder.isFile folder).
Proof. reflexivity. Qed.

(** C4. A run of [zipAllFolders] that starts with no folder in status
    [ZIPPING] ends with no folder in status [ZIPPING], whenever stop is
    clicked.  Let the registry hold no folder classified as a file, let [r]
    be a folder the run zips, and let stop not be clicked before the zip of
    [r] starts.  If stop is clicked during the wait after one of the files
    of [r], the run ends with the flag set, the folders before [r] zipped,
    [r] reset (status [PENDING], progress [0]) and the folders after [r]
    untouched.  If stop is first clicked while the archive of [r] is
    generated, the run ends with the flag set, [r] complete (progress
    [100], archive stored) and the folders after [r] untouched. *)
Theorem zipAllFolders_stop_outcome : forall round_percent env st,
  ((forall f, In f (folders st) -> Folder.status f <> ZIPPING) ->
   forall f, In f (folders (zipAllFolders round_percent env st)) ->
             Folder.status f <> ZIPPING)
  /\ (forall pre r post,
        (forall f, In f (folders st) -> Folder.isFile f = false) ->
        folders st = pre ++ r :: post ->
        isPendingFolder r = true ->
        (forall k, k < awaits_of pre -> env k = false) ->
        ((exists i, i < List.length (Folder.files r)
                    /\ env (awaits_of pre + i) = true) ->
         zipAllFolders round_percent env st
         = mkState (map zippedIfPending pre ++ resetFolderState r :: post) true)
        /\ ((forall i, i < List.length (Folder.files r) ->
                       env (awaits_of pre + i) = false) ->
            env (awaits_of pre + List.length (Folder.files r)) = true ->
            zipAllFolders round_percent env st
            = mkState (map zippedIfPending pre ++ zipped r :: post) true)).
Proof.
  intros round_percent env st. split.
  - intros Hall f Hin. unfold zipAllFolders in Hin.
    destruct (validateAndHighlightFiles st); [now apply Hall|].
    pose proof (zipAllFolders_loop_status round_percent env (folders st)
                  (mkSched false 0) Hall f) as H.
    destruct (zipAllFolders_loop round_percent env (folders st) (mkSched false 0))
      as [fs s']. apply H. exact Hin.
  - intros pre r post Hvalid Hfs Hr Hpre.
    unfold zipAllFolders.
    rewrite (validateAndHighlightFiles_false st Hvalid), Hfs.
    rewrite (zipAllFolders_loop_prefix round_percent env pre (r :: post) 0 Hpre).
    cbn [zipAllFolders_loop stopFlag Nat.add]. rewrite Hr.
    split.
    + intros Hstop.
      destruct (zipFolder_interrupted round_percent env r
                  (mkSched false (awaits_of pre)) eq_refl Hstop) as [s' [E Hs']].
      rewrite E, (zipAllFolders_loop_stopped round_percent env post s' Hs').
      cbn [fst snd]. now rewrite Hs'.
    + intros Hrun Hgen.
      rewrite (zipFolder_run round_percent env r (mkSched false (awaits_of pre))
                 eq_refl Hrun).
      cbn [awaits]. rewrite Hgen.
      rewrite zipAllFolders_loop_stopped by reflexivity.
      reflexivity.
Qed.

Lemma zipAllFolders_stop_outcome_witness :
  let st := mkState [folder_docs; folder_src; folder_empty] false in
  (forall f, In f (folders (zipAllFolders round_percent_exact (stopAt 2) st)) ->
             Folder.status f <> ZIPPING)
  /\ zipAllFolders round_percent_exact (stopAt 2) st
     = mkState [zipped folder_docs; resetFolderState folder_src; folder_empty] true
  /\ zipAllFolders round_percent_exact (stopAt 4) st
     = mkState [zipped folder_docs; zipped folder_src; folder_empty] true.
Proof.
  intros st.
  assert (Hvalid : forall f, In f (folders st) -> Folder.isFile f = false).
  { simpl. intros f [<-|[<-|[<-|[]]]]; reflexivity. }
  split; [|split].
  - apply (proj1 (zipAllFolders_stop_outcome round_percent_exact (stopAt 2) st)).
    simpl. intros f [<-|[<-|[<-|[]]]]; discriminate.
  - apply (proj1 (proj2 (zipAllFolders_stop_outcome round_percent_exact (stopAt 2) st)
                    [folder_docs] folder_src [folder_empty]
                    Hvalid eq_refl eq_refl
                    ltac:(simpl; intros k Hk;
                          destruct k as [|[|k]]; [reflexivity | reflexivity | lia]))).
    exists 0. split; [simpl; lia | reflexivity].
  - apply (proj2 (proj2 (zipAllFolders_stop_outcome round_percent_exact (stopAt 4) st)
                    [folder_docs] folder_src [folder_empty]
                    Hvalid eq_refl eq_refl
                    ltac:(simpl; intros k Hk;
                          destruct k as [|[|k]]; [reflexivity | reflexivity | lia]))).
    + simpl. intros i Hi. destruct i as [|[|i]]; [reflexivity | reflexivity | lia].
    + reflexivity.
Defined.

(** The registry holds one pending folder with one file and stop is clicked
    while its archive is generated: the run ends with the flag set and the
    folder complete with progress [100], not pending with progress [0]. *)
Lemma zipAllFolders_stop_during_generation :
  let st := mkState [folder_docs] false in
  let st' := zipAllFolders round_percent_exact (stopAt 1) st in
  isPendingFolder folder_docs = true
  /\ shouldStopZipping st' = true
  /\ map Folder.status (folders st') = [COMPLETE]
  /\ map Folder.progress (folders st') = [100%Z]
  /\ ~ (forall f, In f (folders st') ->
          Folder.status f = PENDING /\ Folder.progress f = 0%Z).
Proof.
  simpl. repeat split.
  intros H.
  destruct (H (zipped folder_docs) (or_introl eq_refl)) as [E _].
  discriminate E.
Qed.

(** C6. When the registry holds a folder classified as a file,
    [zipAllFolders] returns before it touches anything: the folders, with
    their status, progress and archive, and the flag are as before. *)
Theorem zipAllFolders_aborts_on_unwanted : forall round_percent env st,
  (exists f, In f (folders st) /\ Folder.isFile f = true) ->
  zipAllFolders round_percent env st = st.
Proof.
  intros round_percent env st H. unfold zipAllFolders.
  now rewrite (validateAndHighlightFiles_true st H).
Qed.

Lemma zipAllFolders_aborts_on_unwanted_witness :
  let st := mkState [folder_docs; folder_stray; folder_src] true in
  zipAllFolders round_percent_exact (fun _ => false) st = st.
Proof.
  intros st.
  apply (zipAllFolders_aborts_on_unwanted round_percent_exact (fun _ => false) st).
  exists folder_stray. split; [simpl; tauto | reflexivity].
Defined.

(** C10. For a folder without files and with the flag clear, [zipFolder]
    returns after one await, the one of the generation: the folder is
    complete, with progress [100] and the archive of an empty zip; the
    result does not depend on the rounding of a progress, which is not
    computed, nor on a click on stop during the generation. *)
Theorem zipFolder_no_files : forall round_percent env folder s,
  Folder.files folder = [] ->
  stopFlag s = false ->
  zipFolder round_percent env folder s
  = (Folder.mk (Folder.id folder) (Folder.name folder) []
               COMPLETE 100%Z (Some (generateAsync new_JSZip))
               (Folder.isFile folder),
     await env s).
Proof.
  intros round_percent env folder s Hfiles Hs.
  unfold zipFolder. rewrite Hs.
  change (Folder.files (Folder.set_status ZIPPING folder)) with (Folder.files folder).
  rewrite Hfiles. cbv zeta. cbn [zipFolder_loop List.length].
  unfold zipFolder_generate. rewrite Hs.
  unfold Folder.set_progress, Folder.set_status, Folder.set_zipBlob.
  cbn [Folder.id Folder.name Folder.files Folder.isFile].
  now rewrite Hfiles.
Qed.

Lemma zipFolder_no_files_witness :
  zipFolder (fun _ _ => 0%Z) (stopAt 0) folder_empty (mkSched false 0)
  = (Folder.mk 3%N "empty" [] COMPLETE 100%Z (Some (ZipBlob [])) false,
     mkSched true 1).
Proof.
  apply (zipFolder_no_files (fun _ _ => 0%Z) (stopAt 0) folder_empty (mkSched false 0));
    reflexivity.
Defined.

(* ====================================================================== *)
(** * Further properties of the script *)
(* ====================================================================== *)

(** ** The classifier, continued *)

Lemma lower_ascii_idempotent : forall c,
  lower_ascii (lower_ascii c) = lower_ascii c.
Proof.
  intros [[] [] [] [] [] [] [] []]; reflexivity.
Qed.

Lemma toLowerCase_idempotent : forall s,
  toLowerCase (toLowerCase s) = toLowerCase s.
Proof.
  induction s as [|c s IH]; simpl; [reflexivity|].
  now rewrite lower_ascii_idempotent, IH.
Qed.

Lemma substring_suffix : forall s k,
  k <= String.length s ->
  exists p, s = (p ++ substring k (String.length s - k) s)%string.
Proof.
  induction s as [|c s IH]; intros k Hk.
  - exists ""%string. destruct k; reflexivity.
  - destruct k as [|k].
    + exists ""%string. rewrite Nat.sub_0_r, substring_all. reflexivity.
    + simpl in Hk. destruct (IH k) as [p Hp]; [lia|].
      exists (String c p). simpl. now rewrite <- Hp.
Qed.

Lemma endsWith_decompose : forall s ext,
  endsWith s ext = true -> exists p, s = (p ++ ext)%string.
Proof.
  intros s ext H. unfold endsWith in H.
  destruct (String.length s <? String.length ext) eqn:Hlen; [discriminate|].
  apply Nat.ltb_ge in Hlen. apply String.eqb_eq in H.
  destruct (substring_suffix s (String.length s - String.length ext)) as [p Hp]; [lia|].
  exists p.
  replace (String.length s - (String.length s - String.length ext))
    with (String.length ext) in Hp by lia.
  now rewrite H in Hp.
Qed.

Lemma test_dot_word_1_5_end_decompose : forall s,
  test_dot_word_1_5_end s = true ->
  exists stem w, s = (stem ++ String "." w)%string /\ word_1_5_then_end w = true.
Proof.
  induction s as [|c s IH]; simpl; intros H; [discriminate|].
  apply orb_true_iff in H as [H|H].
  - apply andb_true_iff in H as [Hc Hw]. apply Ascii.eqb_eq in Hc. subst c.
    exists ""%string, s. split; [reflexivity | exact Hw].
  - destruct (IH H) as [stem [w [-> Hw]]].
    exists (String c stem), w. split; [reflexivity | exact Hw].
Qed.

Lemma all_word_chars_Forall : forall w,
  all_word_chars w = true
  <-> Forall (fun c => is_word_char c = true) (list_ascii_of_string w).
Proof.
  induction w as [|c w IH]; simpl; split; intros H.
  - constructor.
  - reflexivity.
  - apply andb_true_iff in H as [Hc Hw]. constructor; [exact Hc | now apply IH].
  - inversion H as [|? ? Hc Hw]; subst. rewrite Hc. simpl. now apply IH.
Qed.

(** Every entry of the table other than [.config] is a dot followed by one
    to five word characters. *)
Lemma SUPPORTED_FILE_EXTENSIONS_shape : forall ext,
  In ext SUPPORTED_FILE_EXTENSIONS ->
  ext = ".config"%string
  \/ exists w, ext = String "." w /\ word_1_5_then_end w = true.
Proof.
  intros ext H. unfold SUPPORTED_FILE_EXTENSIONS in H.
  repeat (destruct H as [<-|H];
          [first [left; reflexivity
                 | right; eexists; split; [reflexivity | reflexivity]]|]).
  contradiction.
Qed.

Lemma hasExtension_covered : forall s,
  existsb (fun ext => endsWith s ext) SUPPORTED_FILE_EXTENSIONS = true ->
  test_dot_word_1_5_end s = true \/ endsWith s ".config" = true.
Proof.
  intros s H. apply existsb_exists in H as [ext [Hin Hends]].
  destruct (SUPPORTED_FILE_EXTENSIONS_shape ext Hin) as [->|[w [-> Hw]]].
  - now right.
  - left. destruct (endsWith_decompose _ _ Hends) as [p ->].
    now apply test_dot_word_1_5_end_app.
Qed.

Lemma endsWith_config_hasExtension : forall s,
  endsWith s ".config" = true ->
  existsb (fun ext => endsWith s ext) SUPPORTED_FILE_EXTENSIONS = true.
Proof.
  intros s H. apply existsb_exists. exists ".config"%string.
  split; [|exact H]. unfold SUPPORTED_FILE_EXTENSIONS.
  repeat (first [left; reflexivity | right]).
Qed.

(** X1. The verdict of [isFile] does not depend on the case of the letters:
    a name and its lower-case form are classified alike. *)
Theorem isFile_toLowerCase : forall name,
  isFile (toLowerCase name) = isFile name.
Proof.
  intros name. unfold isFile. now rewrite toLowerCase_idempotent.
Qed.

(** X2. The only entry of the extension table that matters is [.config]:
    every other entry is already matched by the pattern "dot, one to five
    word characters, end", so [isFile] answers "file" exactly when the
    lower-case name matches the pattern or ends with [.config]. *)
Theorem isFile_pattern_or_config : forall name,
  isFile name
  = test_dot_word_1_5_end (toLowerCase name)
    || endsWith (toLowerCase name) ".config".
Proof.
  intros name. unfold isFile.
  destruct (existsb (fun ext => endsWith (toLowerCase name) ext)
                    SUPPORTED_FILE_EXTENSIONS) eqn:Htable.
  - destruct (hasExtension_covered _ Htable) as [H|H]; rewrite H; simpl.
    + reflexivity.
    + now rewrite orb_true_r.
  - destruct (endsWith (toLowerCase name) ".config") eqn:Hc.
    + rewrite (endsWith_config_hasExtension _ Hc) in Htable. discriminate.
    + now rewrite orb_false_r.
Qed.

(** X3. [isFile] answers "file" exactly for the names whose lower-case form
    is some stem, a dot, and then either one to five word characters or the
    word [config]. *)
Theorem isFile_true_iff : forall name,
  isFile name = true
  <-> exists stem w,
        toLowerCase name = (stem ++ String "." w)%string
        /\ ((1 <= String.length w <= 5
             /\ Forall (fun c => is_word_char c = true) (list_ascii_of_string w))
            \/ w = "config"%string).
Proof.
  intros name. unfold isFile. split.
  - intros H. apply orb_true_iff in H.
    assert (H' : test_dot_word_1_5_end (toLowerCase name) = true
                 \/ endsWith (toLowerCase name) ".config" = true).
    { destruct H as [H|H]; [now apply hasExtension_covered | now left]. }
    destruct H' as [H'|H'].
    + destruct (test_dot_word_1_5_end_decompose _ H') as [stem [w [E Hw]]].
      exists stem, w. split; [exact E|]. left.
      unfold word_1_5_then_end in Hw.
      apply andb_true_iff in Hw as [Hlen Hall].
      apply andb_true_iff in Hlen as [Hlo Hhi].
      apply Nat.leb_le in Hlo, Hhi.
      split; [lia | now apply all_word_chars_Forall].
    + destruct (endsWith_decompose _ _ H') as [p E].
      exists p, "config"%string. split; [exact E | now right].
  - intros [stem [w [E [[Hlen Hall]|Hw]]]]; rewrite E.
    + apply orb_true_iff; right. apply test_dot_word_1_5_end_app.
      unfold word_1_5_then_end.
      apply andb_true_iff; split; [apply andb_true_iff; split|].
      * apply Nat.leb_le; lia.
      * apply Nat.leb_le; lia.
      * now apply all_word_chars_Forall.
    + subst w. apply orb_true_iff; left.
      apply endsWith_config_hasExtension.
      apply (endsWith_app stem ".config").
Qed.

Lemma isFile_true_iff_witness :
  isFile "Web.CONFIG" = true /\ isFile "photo.jpeg" = true.
Proof.
  split.
  - apply (proj2 (isFile_true_iff "Web.CONFIG")).
    exists "web"%string, "config"%string. split; [reflexivity | now right].
  - apply (proj2 (isFile_true_iff "photo.jpeg")).
    exists "photo"%string, "jpeg"%string. split; [reflexivity | left].
    split; [simpl; lia | simpl; repeat constructor].
Defined.

(** ** Grouping, continued *)

Lemma same_value_eq : forall a b, same_value a b = true <-> a = b.
Proof.
  intros [x|] [y|]; simpl; split; intros H; try discriminate; try reflexivity.
  - apply String.eqb_eq in H. now subst.
  - injection H as ->. apply String.eqb_refl.
Qed.

Lemma spec_hasCommonRoot_all : forall first rest,
  spec_hasCommonRoot (first :: rest) = true
  <-> forall parts, In parts (first :: rest) -> at0 parts = at0 first.
Proof.
  intros first rest. unfold spec_hasCommonRoot. rewrite forallb_forall. split.
  - intros H parts [<-|Hin]; [reflexivity|].
    apply same_value_eq. now apply H.
  - intros H parts Hin. apply same_value_eq. apply H. now right.
Qed.

(** X4. [extractCommonRoot] returns a string exactly when the batch is not
    empty and every path of the batch starts with that string; an empty
    batch and a batch with two different first segments have no common
    root. *)
Theorem extractCommonRoot_iff : forall batch root,
  extractCommonRoot batch = Some root
  <-> batch <> [] /\ forall parts, In parts batch -> at0 parts = Some root.
Proof.
  intros batch root. rewrite extractCommonRoot_spec.
  destruct batch as [|first rest].
  - simpl. split; [discriminate | intros [H _]; now contradiction H].
  - destruct (spec_hasCommonRoot (first :: rest)) eqn:E.
    + pose proof (proj1 (spec_hasCommonRoot_all first rest) E) as Hall.
      split.
      * intros Hroot. split; [discriminate|].
        intros parts Hin. now rewrite (Hall parts Hin).
      * intros [_ H]. apply H. now left.
    + split; [discriminate|]. intros [_ H].
      assert (Htrue : spec_hasCommonRoot (first :: rest) = true).
      { apply spec_hasCommonRoot_all. intros parts Hin.
        rewrite (H parts Hin). symmetry. apply H. now left. }
      congruence.
Qed.

Lemma extractCommonRoot_iff_witness :
  extractCommonRoot [["Proj"; "a.txt"]; ["Proj"; "sub"; "b.txt"]]%string
  = Some "Proj"%string.
Proof.
  apply (proj2 (extractCommonRoot_iff
                  [["Proj"; "a.txt"]; ["Proj"; "sub"; "b.txt"]]%string "Proj"%string)).
  split; [discriminate|].
  intros parts [<-|[<-|[]]]; reflexivity.
Defined.

(** *** The map of groups *)

Lemma Map_get_push_same : forall m k f,
  Map_get (Map_push m k f) k
  = Some (match Map_get m k with Some fs => fs ++ [f] | None => [f] end).
Proof.
  induction m as [|[k0 fs0] m IH]; intros k f; simpl.
  - now rewrite String.eqb_refl.
  - destruct (String.eqb k0 k) eqn:E; simpl; rewrite E; [reflexivity | apply IH].
Qed.

Lemma Map_get_push_other : forall m k f k',
  k' <> k -> Map_get (Map_push m k f) k' = Map_get m k'.
Proof.
  induction m as [|[k0 fs0] m IH]; intros k f k' Hne; simpl.
  - destruct (String.eqb k k') eqn:E; [|reflexivity].
    apply String.eqb_eq in E. congruence.
  - destruct (String.eqb k0 k) eqn:E; simpl.
    + apply String.eqb_eq in E. subst k0.
      destruct (String.eqb k k') eqn:E'; [|reflexivity].
      apply String.eqb_eq in E'. congruence.
    + destruct (String.eqb k0 k'); [reflexivity | now apply IH].
Qed.

Lemma Map_push_keys : forall m k f,
  map fst (Map_push m k f)
  = if Map_has m k then map fst m else map fst m ++ [k].
Proof.
  induction m as [|[k0 fs0] m IH]; intros k f; simpl; [reflexivity|].
  unfold Map_has in *. simpl.
  destruct (String.eqb k0 k) eqn:E; simpl; [reflexivity|].
  rewrite IH. now destruct (existsb (fun kv => String.eqb (fst kv) k) m).
Qed.

Lemma Map_has_In : forall m k, Map_has m k = true <-> In k (map fst m).
Proof.
  intros m k. unfold Map_has. rewrite existsb_exists, in_map_iff. split.
  - intros [kv [Hin E]]. apply String.eqb_eq in E. now exists kv.
  - intros [kv [E Hin]]. exists kv. split; [exact Hin | now apply String.eqb_eq].
Qed.

Lemma Map_push_NoDup : forall m k f,
  NoDup (map fst m) -> NoDup (map fst (Map_push m k f)).
Proof.
  intros m k f H. rewrite Map_push_keys.
  destruct (Map_has m k) eqn:E; [exact H|].
  apply NoDup_app; [exact H | repeat constructor; intros [] |].
  intros x Hx [<-|[]]. apply Map_has_In in Hx. congruence.
Qed.

Lemma Map_get_In : forall m k fs, Map_get m k = Some fs -> In (k, fs) m.
Proof.
  induction m as [|[k0 fs0] m IH]; intros k fs H; simpl in *; [discriminate|].
  destruct (String.eqb k0 k) eqn:E.
  - apply String.eqb_eq in E. injection H as <-. subst. now left.
  - right. now apply IH.
Qed.

Lemma In_Map_get : forall m k fs,
  NoDup (map fst m) -> In (k, fs) m -> Map_get m k = Some fs.
Proof.
  induction m as [|[k0 fs0] m IH]; intros k fs Hnd Hin; [destruct Hin|].
  simpl in Hnd. inversion Hnd as [|? ? Hnot Hnd']; subst.
  simpl. destruct Hin as [E|Hin].
  - injection E as -> ->. now rewrite String.eqb_refl.
  - destruct (String.eqb k0 k) eqn:E.
    + apply String.eqb_eq in E. subst k0. exfalso. apply Hnot.
      apply in_map_iff. now exists (k, fs).
    + now apply IH.
Qed.

Lemma Map_push_concat : forall m k f,
  Permutation (List.concat (map snd (Map_push m k f))) (f :: List.concat (map snd m)).
Proof.
  induction m as [|[k0 fs0] m IH]; intros k f; simpl; [reflexivity|].
  destruct (String.eqb k0 k); simpl.
  - rewrite <- app_assoc. simpl.
    apply Permutation_sym, Permutation_middle.
  - rewrite (IH k f). apply Permutation_sym, Permutation_middle.
Qed.

Section GroupingLoop.

(** The loop that fills the map, for any way [g] of naming a file. *)
Variable g : File.t -> JsOpt string.

Lemma groupLoop_get : forall files m key,
  Map_get (fold_left (groupStep g) files m) key
  = match Map_get m key, filter (named g key) files with
    | Some fs, l => Some (fs ++ l)
    | None, [] => None
    | None, l => Some l
    end.
Proof.
  induction files as [|file files IH]; intros m key.
  - simpl. destruct (Map_get m key); [now rewrite app_nil_r | reflexivity].
  - cbn [fold_left filter]. rewrite IH.
    destruct (g file) as [k|] eqn:Eg.
    + assert (Hn : named g key file = same_value (Some k) (Some key))
        by (unfold named; now rewrite Eg).
      rewrite Hn. unfold groupStep. rewrite Eg.
      destruct (same_value (Some k) (Some key)) eqn:Ek.
      * apply same_value_eq in Ek. injection Ek as ->.
        rewrite Map_get_push_same.
        destruct (Map_get m key); [now rewrite <- app_assoc | reflexivity].
      * rewrite Map_get_push_other; [reflexivity|].
        intros ->. now rewrite same_value_refl in Ek.
    + assert (Hn : named g key file = false)
        by (unfold named; now rewrite Eg).
      rewrite Hn. unfold groupStep. now rewrite Eg.
Qed.

Lemma groupLoop_NoDup : forall files m,
  NoDup (map fst m) -> NoDup (map fst (fold_left (groupStep g) files m)).
Proof.
  induction files as [|file files IH]; intros m H; [exact H|].
  cbn [fold_left]. apply IH. unfold groupStep.
  destruct (g file); [now apply Map_push_NoDup | exact H].
Qed.

Lemma groupLoop_concat : forall files m,
  (forall file, In file files -> g file <> None) ->
  Permutation (List.concat (map snd (fold_left (groupStep g) files m)))
              (List.concat (map snd m) ++ files).
Proof.
  induction files as [|file files IH]; intros m Hdef.
  - simpl. now rewrite app_nil_r.
  - cbn [fold_left]. rewrite IH by (intros f Hf; apply Hdef; now right).
    unfold groupStep. destruct (g file) as [k|] eqn:Eg.
    + rewrite (Map_push_concat m k file).
      simpl. apply Permutation_middle.
    + exfalso. apply (Hdef file); [now left | exact Eg].
Qed.

Lemma groupLoop_keys : forall files m,
  (forall file, In file files -> g file <> None) ->
  map Some (map fst (fold_left (groupStep g) files m))
  = Set_add_all (map Some (map fst m)) (map g files).
Proof.
  induction files as [|file files IH]; intros m Hdef; [reflexivity|].
  cbn [fold_left map Set_add_all].
  rewrite IH by (intros f Hf; apply Hdef; now right).
  unfold groupStep. destruct (g file) as [k|] eqn:Eg.
  - rewrite Map_push_keys.
    assert (E : existsb (same_value (Some k)) (map Some (map fst m)) = Map_has m k).
    { unfold Map_has. clear. induction m as [|[k0 fs0] m IHm]; simpl; [reflexivity|].
      rewrite IHm. f_equal. apply String.eqb_sym. }
    rewrite E. destruct (Map_has m k); [reflexivity|].
    now rewrite !map_app.
  - exfalso. apply (Hdef file); [now left | exact Eg].
Qed.

End GroupingLoop.

Lemma folderMap_as_groupLoop : forall fileArray,
  processUploadedFiles_folderMap fileArray
  = fold_left (groupStep (groupNameOf fileArray)) fileArray [].
Proof. reflexivity. Qed.

Lemma groupNameOf_defined : forall fileArray file,
  groupNameOf fileArray file <> None.
Proof.
  intros fileArray file. unfold groupNameOf.
  destruct (extractFolderName_split_defined (File.webkitRelativePath file)
              (extractCommonRoot
                 (map (fun f => split "/" (File.webkitRelativePath f)) fileArray)))
    as [k ->].
  discriminate.
Qed.

(** X5. The groups [processUploadedFiles] builds are exactly the non-empty
    classes of the batch under the computed folder name: a name is paired
    with a list of files in the map if and only if that list is not empty
    and consists of the files of the batch filed under the name, in the
    order of the batch. *)
Theorem folderMap_groups : forall fileArray key files,
  In (key, files) (processUploadedFiles_folderMap fileArray)
  <-> files = filter (groupedUnder fileArray key) fileArray /\ files <> [].
Proof.
  intros fileArray key files. rewrite folderMap_as_groupLoop.
  pose proof (groupLoop_get (groupNameOf fileArray) fileArray [] key) as Hget.
  simpl Map_get in Hget.
  change (named (groupNameOf fileArray) key) with (groupedUnder fileArray key) in Hget.
  assert (Hnd : NoDup (map fst (fold_left (groupStep (groupNameOf fileArray)) fileArray [])))
    by (apply groupLoop_NoDup; constructor).
  split.
  - intros Hin. rewrite (In_Map_get _ _ _ Hnd Hin) in Hget.
    destruct (filter (groupedUnder fileArray key) fileArray) as [|f l];
      [discriminate Hget|].
    injection Hget as ->. split; [reflexivity | discriminate].
  - intros [-> Hne]. apply Map_get_In. rewrite Hget.
    destruct (filter (groupedUnder fileArray key) fileArray) as [|f l];
      [now contradiction Hne | reflexivity].
Qed.

Lemma folderMap_groups_witness :
  In ("sub"%string, [file_b]) (processUploadedFiles_folderMap [file_a; file_b]).
Proof.
  apply (proj2 (folderMap_groups [file_a; file_b] "sub" [file_b])).
  split; [reflexivity | discriminate].
Defined.

(** X6. The groups partition the batch: no folder name occurs twice in the
    map, and the files of all groups together are the files of the batch,
    each as often as it is in the batch. *)
Theorem folderMap_partition : forall fileArray,
  NoDup (map fst (processUploadedFiles_folderMap fileArray))
  /\ Permutation (List.concat (map snd (processUploadedFiles_folderMap fileArray)))
                 fileArray.
Proof.
  intros fileArray. rewrite folderMap_as_groupLoop. split.
  - apply groupLoop_NoDup. constructor.
  - apply (groupLoop_concat (groupNameOf fileArray) fileArray []).
    intros file _. apply groupNameOf_defined.
Qed.

(** X7. The groups are listed in the order in which their names are first
    met in the batch: the names of the map are the members of the set of
    the computed folder names, in insertion order. *)
Theorem folderMap_discovery_order : forall fileArray,
  map Some (map fst (processUploadedFiles_folderMap fileArray))
  = Set_of (map (groupNameOf fileArray) fileArray).
Proof.
  intros fileArray. rewrite folderMap_as_groupLoop.
  apply (groupLoop_keys (groupNameOf fileArray) fileArray []).
  intros file _. apply groupNameOf_defined.
Qed.

Lemma extractCommonRoot_differ : forall batch p q,
  In p batch -> In q batch -> at0 p <> at0 q ->
  extractCommonRoot batch = None.
Proof.
  intros batch p q Hp Hq Hne. rewrite extractCommonRoot_spec.
  destruct batch as [|first rest]; [destruct Hp|].
  destruct (spec_hasCommonRoot (first :: rest)) eqn:E; [|reflexivity].
  pose proof (proj1 (spec_hasCommonRoot_all first rest) E) as Hall.
  exfalso. apply Hne. now rewrite (Hall p Hp), (Hall q Hq).
Qed.

(** X8. When two files of the batch start with different segments, there
    is no common root and every file is filed under the first segment of
    its own path, however deep the path is. *)
Theorem groupNameOf_without_common_root : forall fileArray f1 f2,
  In f1 fileArray -> In f2 fileArray ->
  at0 (split "/" (File.webkitRelativePath f1))
  <> at0 (split "/" (File.webkitRelativePath f2)) ->
  forall file,
    groupNameOf fileArray file = at0 (split "/" (File.webkitRelativePath file)).
Proof.
  intros fileArray f1 f2 H1 H2 Hne file. unfold groupNameOf.
  rewrite (extractCommonRoot_differ
             (map (fun f => split "/" (File.webkitRelativePath f)) fileArray)
             (split "/" (File.webkitRelativePath f1))
             (split "/" (File.webkitRelativePath f2))).
  - reflexivity.
  - apply in_map_iff. now exists f1.
  - apply in_map_iff. now exists f2.
  - exact Hne.
Qed.

Lemma groupNameOf_without_common_root_witness :
  groupNameOf [File.mk "A/x/1.txt" "1.txt"; File.mk "B/y/2.txt" "2.txt"]
              (File.mk "A/x/1.txt" "1.txt")
  = Some "A"%string.
Proof.
  apply (groupNameOf_without_common_root
           [File.mk "A/x/1.txt" "1.txt"; File.mk "B/y/2.txt" "2.txt"]
           (File.mk "A/x/1.txt" "1.txt") (File.mk "B/y/2.txt" "2.txt")).
  - now left.
  - right. now left.
  - simpl. discriminate.
Defined.

Lemma split_no_sep : forall sep s,
  ~ In sep (list_ascii_of_string s) -> split sep s = [s].
Proof.
  intros sep. induction s as [|c s IH]; intros H; [reflexivity|].
  simpl. destruct (Ascii.eqb c sep) eqn:E.
  - apply Ascii.eqb_eq in E. exfalso. apply H. now left.
  - rewrite IH; [reflexivity|]. intros F. apply H. now right.
Qed.

(** X9. A file whose path has no slash is filed under its whole path,
    whatever the rest of the batch is. *)
Theorem groupNameOf_flat_path : forall fileArray file,
  ~ In "/"%char (list_ascii_of_string (File.webkitRelativePath file)) ->
  groupNameOf fileArray file = Some (File.webkitRelativePath file).
Proof.
  intros fileArray file H. unfold groupNameOf.
  rewrite (split_no_sep "/" _ H). unfold extractFolderName. simpl.
  now rewrite andb_false_r.
Qed.

Lemma groupNameOf_flat_path_witness :
  groupNameOf [file_a; File.mk "notes.txt" "notes.txt"]
              (File.mk "notes.txt" "notes.txt")
  = Some "notes.txt"%string.
Proof.
  apply (groupNameOf_flat_path [file_a; File.mk "notes.txt" "notes.txt"]
                               (File.mk "notes.txt" "notes.txt")).
  simpl. intros H.
  repeat (destruct H as [E|H]; [discriminate E|]). exact H.
Defined.

(** ** The registry, continued *)

Lemma addFolder_cases : forall newId name files page,
  (In name (map Folder.name (folders (state page)))
   /\ addFolder newId name files page = page)
  \/ (~ In name (map Folder.name (folders (state page)))
      /\ addFolder newId name files page
         = mkPage (mkState (folders (state page)
                              ++ [createFolderObject newId name files])
                           (shouldStopZipping (state page)))
                  (foldersList page ++ [newId])).
Proof.
  intros newId name files page. unfold addFolder.
  destruct (existsb (fun folder => String.eqb (Folder.name folder) name)
                    (folders (state page))) eqn:E.
  - left. split; [|reflexivity].
    apply existsb_exists in E as [f [Hin Hn]]. apply String.eqb_eq in Hn.
    apply in_map_iff. now exists f.
  - right. split; [|reflexivity].
    intros Hin. apply in_map_iff in Hin as [f [Hn Hin]].
    assert (Ht : existsb (fun folder => String.eqb (Folder.name folder) name)
                         (folders (state page)) = true).
    { apply existsb_exists. exists f. split; [exact Hin | now apply String.eqb_eq]. }
    congruence.
Qed.

Lemma NoDup_snoc : forall (A : Type) (l : list A) (x : A),
  NoDup l -> ~ In x l -> NoDup (l ++ [x]).
Proof.
  intros A l x Hl Hx. apply NoDup_app; [exact Hl | repeat constructor; intros [] |].
  intros y Hy [<-|[]]. exact (Hx Hy).
Qed.

Lemma NoDup_map_filter : forall (A B : Type) (f : A -> B) (p : A -> bool) (l : list A),
  NoDup (map f l) -> NoDup (map f (filter p l)).
Proof.
  intros A B f p. induction l as [|a l IH]; intros H; [constructor|].
  simpl in H. inversion H as [|? ? Hnot Hnd]; subst. simpl.
  destruct (p a); [|now apply IH].
  simpl. constructor; [|now apply IH].
  intros Hin. apply Hnot. apply in_map_iff in Hin as [b [Hb Hin]].
  apply filter_In in Hin as [Hin _]. apply in_map_iff. now exists b.
Qed.

Lemma hasFolderElement_app : forall st rows more i,
  hasFolderElement (mkPage st rows) i = true ->
  hasFolderElement (mkPage st (rows ++ more)) i = true.
Proof.
  intros st rows more i H. unfold hasFolderElement in *. simpl in *.
  rewrite existsb_app. apply orb_true_iff. now left.
Qed.

Lemma removeUnwantedFiles_folders : forall page,
  folders (state (removeUnwantedFiles page))
  = filter (fun f => negb (Folder.isFile f)) (folders (state page)).
Proof.
  intros page. unfold removeUnwantedFiles.
  destruct (List.length (filter Folder.isFile (folders (state page))) =? 0) eqn:H.
  - apply Nat.eqb_eq in H. now rewrite filter_none_negb.
  - reflexivity.
Qed.

Lemma removeUnwantedFiles_rows : forall page,
  foldersList (removeUnwantedFiles page) = foldersList page.
Proof.
  intros page. unfold removeUnwantedFiles.
  now destruct (List.length (filter Folder.isFile (folders (state page))) =? 0).
Qed.

Lemma removeFolder_cases : forall folder page,
  removeFolder folder page = page
  \/ (Folder.status folder <> ZIPPING
      /\ hasFolderElement page (Folder.id folder) = true
      /\ removeFolder folder page
         = mkPage (mkState
                     (filter (fun f => negb (N.eqb (Folder.id f) (Folder.id folder)))
                             (folders (state page)))
                     (shouldStopZipping (state page)))
                  (foldersList page)).
Proof.
  intros folder page. unfold removeFolder.
  destruct (Folder.status folder) eqn:Es; simpl; try (now left).
  all: destruct (hasFolderElement page (Folder.id folder)) eqn:Er; simpl;
    [right; repeat split; discriminate | now left].
Qed.

(** The second loop of [processUploadedFiles] appends folders and leaves the
    folders it finds as they are. *)
Lemma addFolders_appends : forall m ids k page,
  exists added,
    folders (state (addFolders ids k m page)) = folders (state page) ++ added
    /\ shouldStopZipping (state (addFolders ids k m page))
       = shouldStopZipping (state page)
    /\ Forall (fun f =>
                 Folder.status f = PENDING /\ Folder.progress f = 0%Z
                 /\ Folder.zipBlob f = None
                 /\ Folder.isFile f = isFile (Folder.name f)
                 /\ In (Folder.name f, Folder.files f) m
                 /\ ~ In (Folder.name f) (map Folder.name (folders (state page))))
              added.
Proof.
  induction m as [|[name files] m IH]; intros ids k page.
  - exists []. simpl. rewrite app_nil_r. repeat split. constructor.
  - cbn [addFolders].
    destruct (IH ids (S k) (addFolder (ids k) name files page)) as [added [Hf [Hs Hall]]].
    destruct (addFolder_cases (ids k) name files page) as [[Hin E]|[Hnot E]];
      rewrite E in Hf, Hs, Hall |- *.
    + exists added. split; [exact Hf|]. split; [exact Hs|].
      eapply Forall_impl; [|exact Hall].
      intros f [H1 [H2 [H3 [H4 [H5 H6]]]]]. repeat split; try assumption.
      now right.
    + exists (createFolderObject (ids k) name files :: added).
      simpl in Hf, Hs. rewrite <- app_assoc in Hf. simpl in Hf.
      split; [exact Hf|]. split; [exact Hs|].
      constructor.
      * simpl. repeat split; try reflexivity; [now left | exact Hnot].
      * eapply Forall_impl; [|exact Hall].
        intros f [H1 [H2 [H3 [H4 [H5 H6]]]]]. repeat split; try assumption.
        -- now right.
        -- intros Hin. apply H6. simpl. rewrite map_app. apply in_or_app. now left.
Qed.

(** X10. [processUploadedFiles] only appends to the registry: the folders
    it finds stay where they are, unchanged, and so does the flag; every
    folder it appends is pending, has progress [0] and no archive, carries
    the verdict of [isFile] on its name, is one of the groups of the batch
    and has a name no folder had before. *)
Theorem processUploadedFiles_appends : forall ids files page,
  exists added,
    folders (state (processUploadedFiles ids files page))
    = folders (state page) ++ added
    /\ shouldStopZipping (state (processUploadedFiles ids files page))
       = shouldStopZipping (state page)
    /\ Forall (fun f =>
                 Folder.status f = PENDING /\ Folder.progress f = 0%Z
                 /\ Folder.zipBlob f = None
                 /\ Folder.isFile f = isFile (Folder.name f)
                 /\ In (Folder.name f, Folder.files f)
                       (processUploadedFiles_folderMap files)
                 /\ ~ In (Folder.name f) (map Folder.name (folders (state page))))
              added.
Proof.
  intros ids files page. unfold processUploadedFiles. apply addFolders_appends.
Qed.

Lemma addFolder_uniqueNames : forall newId name files page,
  uniqueNames (state page) -> uniqueNames (state (addFolder newId name files page)).
Proof.
  intros newId name files page H. unfold uniqueNames in *.
  destruct (addFolder_cases newId name files page) as [[_ ->]|[Hnot ->]]; [exact H|].
  simpl. rewrite map_app. simpl. now apply NoDup_snoc.
Qed.

Lemma addFolders_uniqueNames : forall m ids k page,
  uniqueNames (state page) -> uniqueNames (state (addFolders ids k m page)).
Proof.
  induction m as [|[name files] m IH]; intros ids k page H; [exact H|].
  cbn [addFolders]. apply IH. now apply addFolder_uniqueNames.
Qed.

(** X11. Names stay unique: if no two folders of the registry have the same
    name, this is still so after [addFolder], after [processUploadedFiles],
    after [removeFolder] and after [removeUnwantedFiles]. *)
Theorem uniqueNames_kept : forall page,
  uniqueNames (state page) ->
  (forall newId name files, uniqueNames (state (addFolder newId name files page)))
  /\ (forall ids files, uniqueNames (state (processUploadedFiles ids files page)))
  /\ (forall folder, uniqueNames (state (removeFolder folder page)))
  /\ uniqueNames (state (removeUnwantedFiles page)).
Proof.
  intros page H. split; [|split; [|split]].
  - intros newId name files. now apply addFolder_uniqueNames.
  - intros ids files. unfold processUploadedFiles. now apply addFolders_uniqueNames.
  - intros folder.
    destruct (removeFolder_cases folder page) as [->|[_ [_ ->]]]; [exact H|].
    unfold uniqueNames in *. simpl. now apply NoDup_map_filter.
  - unfold uniqueNames in *. rewrite removeUnwantedFiles_folders.
    now apply NoDup_map_filter.
Qed.

Lemma uniqueNames_kept_witness :
  let page := mkPage (mkState [folder_docs; folder_stray] false) [1%N; 4%N] in
  uniqueNames (state (processUploadedFiles (fun k => N.of_nat (10 + k))
                                           [file_a; file_b] page)).
Proof.
  intros page.
  apply (proj1 (proj2 (uniqueNames_kept page
           ltac:(unfold uniqueNames; simpl; repeat constructor; simpl;
                 intros H; repeat (destruct H as [E|H]; [discriminate E|]); exact H)))).
Defined.

Lemma addFolder_rowsCover : forall newId name files page,
  rowsCover page -> rowsCover (addFolder newId name files page).
Proof.
  intros newId name files page H.
  destruct (addFolder_cases newId name files page) as [[_ ->]|[_ ->]]; [exact H|].
  intros f Hin. simpl in Hin. apply in_app_or in Hin as [Hin|[<-|[]]].
  - specialize (H f Hin). destruct page as [st rows].
    now apply hasFolderElement_app.
  - unfold hasFolderElement. simpl. rewrite existsb_app. simpl.
    rewrite N.eqb_refl. now rewrite orb_true_r.
Qed.

Lemma addFolders_rowsCover : forall m ids k page,
  rowsCover page -> rowsCover (addFolders ids k m page).
Proof.
  induction m as [|[name files] m IH]; intros ids k page H; [exact H|].
  cbn [addFolders]. apply IH. now apply addFolder_rowsCover.
Qed.

Lemma existsb_filter_other : forall (rows : list FolderId) i j,
  i <> j ->
  existsb (N.eqb i) (filter (fun r => negb (N.eqb r j)) rows)
  = existsb (N.eqb i) rows.
Proof.
  intros rows i j Hne. induction rows as [|r rows IH]; [reflexivity|].
  simpl. destruct (N.eqb r j) eqn:E; simpl.
  - apply N.eqb_eq in E. subst r.
    replace (N.eqb i j) with false by (symmetry; now apply N.eqb_neq).
    exact IH.
  - now rewrite IH.
Qed.

(** X12. Every folder of the registry keeps its row: if each folder of the
    registry has its row in the folders list, this is still so after
    [addFolder], [processUploadedFiles], [removeFolder],
    [removeUnwantedFiles] and [clearAllFolders], and also once the
    callback of a [removeFolder] on a folder that is not being zipped has
    taken the row of that folder away. *)
Theorem rowsCover_kept : forall page,
  rowsCover page ->
  (forall newId name files, rowsCover (addFolder newId name files page))
  /\ (forall ids files, rowsCover (processUploadedFiles ids files page))
  /\ (forall folder, rowsCover (removeFolder folder page))
  /\ rowsCover (removeUnwantedFiles page)
  /\ rowsCover (clearAllFolders page)
  /\ (forall folder, Folder.status folder <> ZIPPING ->
        rowsCover (removeFolder_timeout folder (removeFolder folder page))).
Proof.
  intros page H. repeat split.
  - intros newId name files. now apply addFolder_rowsCover.
  - intros ids files. unfold processUploadedFiles. now apply addFolders_rowsCover.
  - intros folder.
    destruct (removeFolder_cases folder page) as [->|[_ [_ ->]]]; [exact H|].
    intros f Hin. simpl in Hin. apply filter_In in Hin as [Hin _].
    exact (H f Hin).
  - intros f Hin. rewrite removeUnwantedFiles_folders in Hin.
    apply filter_In in Hin as [Hin _].
    unfold hasFolderElement. rewrite removeUnwantedFiles_rows. exact (H f Hin).
  - intros f [].
  - intros folder Hst f Hin.
    destruct (removeFolder_cases folder page) as [E|[_ [Hrow E]]];
      rewrite E in Hin |- *.
    + unfold removeFolder_timeout, hasFolderElement in *. simpl in *.
      assert (Hne : Folder.id f <> Folder.id folder).
      { intros Heq.
        assert (Hr : hasFolderElement page (Folder.id folder) = true)
          by (rewrite <- Heq; exact (H f Hin)).
        unfold removeFolder in E. 
        destruct (Folder.status folder); try contradiction;
          simpl in E; rewrite Hr in E; simpl in E;
          apply (f_equal (fun p => folders (state p))) in E; simpl in E;
          rewrite <- E in Hin; apply filter_In in Hin as [_ Hid];
          rewrite Heq, N.eqb_refl in Hid; discriminate Hid. }
      rewrite existsb_filter_other by exact Hne. exact (H f Hin).
    + unfold removeFolder_timeout, hasFolderElement. simpl in *.
      apply filter_In in Hin as [Hin Hid].
      apply negb_true_iff, N.eqb_neq in Hid.
      rewrite existsb_filter_other by exact Hid. exact (H f Hin).
Qed.

Lemma rowsCover_kept_witness :
  let page := mkPage (mkState [folder_docs; folder_src] false) [1%N; 2%N] in
  rowsCover (removeFolder_timeout folder_docs (removeFolder folder_docs page))
  /\ rowsCover (processUploadedFiles (fun k => N.of_nat (10 + k)) [file_a; file_b] page).
Proof.
  intros page.
  assert (H : rowsCover page).
  { intros f [<-|[<-|[]]]; reflexivity. }
  destruct (rowsCover_kept page H) as [_ [Hp [_ [_ [_ Ht]]]]].
  split.
  - apply Ht. discriminate.
  - apply Hp.
Defined.

Lemma filter_other_ids : forall (l : list Folder.t) i,
  ~ In i (map Folder.id l) ->
  filter (fun f => negb (N.eqb (Folder.id f) i)) l = l.
Proof.
  induction l as [|f l IH]; intros i H; [reflexivity|].
  simpl. destruct (N.eqb (Folder.id f) i) eqn:E.
  - apply N.eqb_eq in E. exfalso. apply H. now left.
  - simpl. rewrite IH; [reflexivity|]. intros F. apply H. now right.
Qed.

(** X13. In a page where every folder has its row and the ids are pairwise
    different, [removeFolder] on a folder of the registry that is not being
    zipped removes that folder and no other: the folders before it and
    after it stay, in order, and the flag and the rows are as before. *)
Theorem removeFolder_registered : forall page pre folder post,
  rowsCover page ->
  NoDup (map Folder.id (folders (state page))) ->
  folders (state page) = pre ++ folder :: post ->
  Folder.status folder <> ZIPPING ->
  removeFolder folder page
  = mkPage (mkState (pre ++ post) (shouldStopZipping (state page)))
           (foldersList page).
Proof.
  intros page pre folder post Hrows Hids Hfs Hst.
  assert (Hrow : hasFolderElement page (Folder.id folder) = true).
  { apply Hrows. rewrite Hfs. apply in_or_app. right. now left. }
  unfold removeFolder.
  destruct (Folder.status folder) eqn:Es; try contradiction; simpl;
    rewrite Hrow; simpl; rewrite Hfs in Hids |- *.
  all: rewrite map_app in Hids; simpl in Hids;
    apply NoDup_remove in Hids as [_ Hnot];
    rewrite filter_app; simpl; rewrite N.eqb_refl; simpl;
    rewrite !filter_other_ids;
    [reflexivity
    | intros F; apply Hnot; apply in_or_app; now right
    | intros F; apply Hnot; apply in_or_app; now left].
Qed.

Lemma removeFolder_registered_witness :
  let page := mkPage (mkState [folder_docs; folder_src; folder_empty] false)
                     [1%N; 2%N; 3%N] in
  removeFolder folder_src page
  = mkPage (mkState [folder_docs; folder_empty] false) [1%N; 2%N; 3%N].
Proof.
  intros page.
  apply (removeFolder_registered page [folder_docs] folder_src [folder_empty]).
  - intros f [<-|[<-|[<-|[]]]]; reflexivity.
  - simpl. repeat constructor; simpl; intros H;
      repeat (destruct H as [E|H]; [discriminate E|]); exact H.
  - reflexivity.
  - discriminate.
Defined.

Lemma addFolders_noop : forall m ids k page,
  (forall key, In key (map fst m) ->
               In key (map Folder.name (folders (state page)))) ->
  addFolders ids k m page = page.
Proof.
  induction m as [|[name files] m IH]; intros ids k page H; [reflexivity|].
  cbn [addFolders].
  destruct (addFolder_cases (ids k) name files page) as [[_ ->]|[Hnot _]].
  - apply IH. intros key Hk. apply H. now right.
  - exfalso. apply Hnot. apply H. now left.
Qed.

Lemma addFolders_names_kept : forall m ids k page n,
  In n (map Folder.name (folders (state page))) ->
  In n (map Folder.name (folders (state (addFolders ids k m page)))).
Proof.
  intros m ids k page n H.
  destruct (addFolders_appends m ids k page) as [added [-> _]].
  rewrite map_app. apply in_or_app. now left.
Qed.

Lemma addFolders_names_present : forall m ids k page key,
  In key (map fst m) ->
  In key (map Folder.name (folders (state (addFolders ids k m page)))).
Proof.
  induction m as [|[name files] m IH]; intros ids k page key H; [destruct H|].
  cbn [addFolders]. destruct H as [<-|H]; [|now apply IH].
  apply addFolders_names_kept. simpl.
  destruct (addFolder_cases (ids k) name files page) as [[Hin ->]|[_ ->]];
    [exact Hin|].
  simpl. rewrite map_app. apply in_or_app. right. now left.
Qed.

(** X14. Selecting the same batch a second time changes nothing: after
    [processUploadedFiles] on a batch, a second call on the same batch,
    whatever ids it would generate, returns the page as it is. *)
Theorem processUploadedFiles_twice : forall ids ids' files page,
  processUploadedFiles ids' files (processUploadedFiles ids files page)
  = processUploadedFiles ids files page.
Proof.
  intros ids ids' files page. unfold processUploadedFiles at 1.
  apply addFolders_noop. intros key Hkey.
  unfold processUploadedFiles. now apply addFolders_names_present.
Qed.

Lemma addFolders_all_new : forall m ids k page,
  NoDup (map fst m) ->
  (forall key, In key (map fst m) ->
               ~ In key (map Folder.name (folders (state page)))) ->
  folders (state (addFolders ids k m page))
  = folders (state page)
    ++ map (fun e => createFolderObject (ids (fst e)) (fst (snd e)) (snd (snd e)))
           (combine (seq k (List.length m)) m).
Proof.
  induction m as [|[name files] m IH]; intros ids k page Hnd Hfree.
  - simpl. now rewrite app_nil_r.
  - simpl in Hnd. inversion Hnd as [|? ? Hnot Hnd']; subst.
    cbn [addFolders List.length seq combine map fst snd].
    destruct (addFolder_cases (ids k) name files page) as [[Hin _]|[_ E]].
    + exfalso. apply (Hfree name); [now left | exact Hin].
    + rewrite IH; [| exact Hnd' |].
      * rewrite E. simpl. rewrite <- app_assoc. reflexivity.
      * intros key Hkey. rewrite E. simpl. rewrite map_app.
        intros Hin. apply in_app_or in Hin as [Hin|[<-|[]]].
        -- apply (Hfree key); [now right | exact Hin].
        -- exact (Hnot Hkey).
Qed.

(** X15. When none of the group names of the batch is the name of a folder
    of the registry, as on an empty registry, [processUploadedFiles]
    appends one folder for every group, in the order of the groups, the
    [k]-th one with the [k]-th generated id, the name and the files of the
    group. *)
Theorem processUploadedFiles_all_new : forall ids files page,
  (forall key, In key (map fst (processUploadedFiles_folderMap files)) ->
               ~ In key (map Folder.name (folders (state page)))) ->
  folders (state (processUploadedFiles ids files page))
  = folders (state page)
    ++ map (fun e => createFolderObject (ids (fst e)) (fst (snd e)) (snd (snd e)))
           (combine (seq 0 (List.length (processUploadedFiles_folderMap files)))
                    (processUploadedFiles_folderMap files)).
Proof.
  intros ids files page Hfree. unfold processUploadedFiles.
  apply addFolders_all_new; [|exact Hfree].
  rewrite folderMap_as_groupLoop. apply groupLoop_NoDup. constructor.
Qed.

Lemma processUploadedFiles_all_new_witness :
  folders (state (processUploadedFiles (fun k => N.of_nat (10 + k))
                                       [file_a; file_b] emptyPage))
  = [createFolderObject 10%N "a.txt" [file_a];
     createFolderObject 11%N "sub" [file_b]].
Proof.
  apply (processUploadedFiles_all_new (fun k => N.of_nat (10 + k))
                                      [file_a; file_b] emptyPage).
  intros key _ [].
Defined.

(** ** The zip operations, continued *)

Section ZipRuns.

Variable round_percent : nat -> nat -> Z.
Variable env : nat -> bool.

Lemma zipFolder_loop_outcome : forall rest totalFiles i zip folder s,
  fst (zipFolder_loop round_percent env totalFiles i rest zip folder s)
  = resetFolderState folder
  \/ fst (zipFolder_loop round_percent env totalFiles i rest zip folder s)
     = Folder.mk (Folder.id folder) (Folder.name folder) (Folder.files folder)
                 COMPLETE 100%Z
                 (Some (generateAsync (zip ++ zipEntries (Folder.name folder) rest)))
                 (Folder.isFile folder).
Proof.
  induction rest as [|file rest IH]; intros totalFiles i zip folder s.
  - simpl. unfold zipFolder_generate. destruct (stopFlag s); simpl.
    + now left.
    + right. now rewrite app_nil_r.
  - cbn [zipFolder_loop]. destruct (stopFlag s); [now left|].
    destruct (IH totalFiles (S i)
                 (zip_file zip (calculateRelativePath file (Folder.name folder)) file)
                 (Folder.set_progress (round_percent (i + 1) totalFiles) folder)
                 (await env s)) as [E|E]; rewrite E.
    + now left.
    + right. unfold zip_file. cbn [Folder.set_progress Folder.id Folder.name
        Folder.files Folder.isFile zipEntries map].
      now rewrite <- app_assoc.
Qed.

(** Whatever happens, [zipFolder] leaves a folder either reset or zipped. *)
Lemma zipFolder_outcome : forall folder s,
  fst (zipFolder round_percent env folder s) = resetFolderState folder
  \/ fst (zipFolder round_percent env folder s) = zipped folder.
Proof.
  intros folder s. unfold zipFolder. destruct (stopFlag s); [now left|].
  destruct (zipFolder_loop_outcome (Folder.files folder)
              (List.length (Folder.files folder)) 0 new_JSZip
              (Folder.set_status ZIPPING folder) s) as [E|E].
  - left. exact E.
  - right. exact E.
Qed.

(** What a run of the loop of [zipAllFolders] can do to a folder. *)
Lemma zipAllFolders_loop_pointwise : forall fs s,
  Forall2 (fun f f' =>
             f' = f
             \/ (isPendingFolder f = true
                 /\ (f' = resetFolderState f \/ f' = zipped f)))
          fs (fst (zipAllFolders_loop round_percent env fs s)).
Proof.
  induction fs as [|folder rest IH]; intros s; [constructor|].
  cbn [zipAllFolders_loop].
  destruct (stopFlag s).
  - simpl. constructor; [now left|].
    clear. induction rest; constructor; [now left | assumption].
  - destruct (isPendingFolder folder) eqn:Hp.
    + pose proof (zipFolder_outcome folder s) as Hz.
      destruct (zipFolder round_percent env folder s) as [folder' s'].
      specialize (IH s').
      destruct (zipAllFolders_loop round_percent env rest s') as [rest' s''].
      simpl in *. constructor; [right; split; [exact Hp | exact Hz] | exact IH].
    + specialize (IH s).
      destruct (zipAllFolders_loop round_percent env rest s) as [rest' s''].
      simpl in *. constructor; [now left | exact IH].
Qed.

Lemma zipAllFolders_pointwise : forall st,
  Forall2 (fun f f' =>
             f' = f
             \/ (isPendingFolder f = true
                 /\ (f' = resetFolderState f \/ f' = zipped f)))
          (folders st) (folders (zipAllFolders round_percent env st)).
Proof.
  intros st. unfold zipAllFolders.
  destruct (validateAndHighlightFiles st).
  - clear. induction (folders st); constructor; [now left | assumption].
  - pose proof (zipAllFolders_loop_pointwise (folders st) (mkSched false 0)) as H.
    destruct (zipAllFolders_loop round_percent env (folders st) (mkSched false 0)).
    exact H.
Qed.

End ZipRuns.

Lemma Forall2_map_eq : forall (A B : Type) (f : A -> B) (R : A -> A -> Prop) l l',
  Forall2 R l l' -> (forall a a', R a a' -> f a' = f a) -> map f l' = map f l.
Proof.
  intros A B f R l l' H HR. induction H as [|a a' l l' Ha _ IH]; [reflexivity|].
  simpl. now rewrite (HR a a' Ha), IH.
Qed.

Lemma zippedIfPending_after : forall f f',
  (f' = f \/ (isPendingFolder f = true
              /\ (f' = resetFolderState f \/ f' = zipped f))) ->
  zippedIfPending f' = zippedIfPending f.
Proof.
  intros f f' [->|[Hp [->| ->]]]; [reflexivity| |].
  - unfold zippedIfPending. rewrite Hp.
    unfold isPendingFolder in *. simpl.
    apply andb_true_iff in Hp as [_ Hv]. rewrite Hv. reflexivity.
  - unfold zippedIfPending. rewrite Hp. reflexivity.
Qed.

Lemma zipAllFolders_neverStop : forall round_percent st,
  (forall f, In f (folders st) -> Folder.isFile f = false) ->
  zipAllFolders round_percent neverStop st
  = mkState (map zippedIfPending (folders st)) false.
Proof.
  intros round_percent st Hvalid. unfold zipAllFolders.
  rewrite (validateAndHighlightFiles_false st Hvalid).
  rewrite (zipAllFolders_loop_awaits round_percent neverStop (folders st) 0)
    by reflexivity.
  reflexivity.
Qed.

(** X16. A run of [zipAllFolders], stopped or not, never adds, removes or
    reorders folders and never changes the id, the name, the files or the
    classification of a folder. *)
Theorem zipAllFolders_keeps_identity : forall round_percent env st,
  map identity (folders (zipAllFolders round_percent env st))
  = map identity (folders st).
Proof.
  intros round_percent env st.
  apply (Forall2_map_eq _ _ identity _ _ _ (zipAllFolders_pointwise round_percent env st)).
  intros f f' [->|[_ [->| ->]]]; reflexivity.
Qed.

(** X17. If every folder of the registry is at rest (pending with progress
    [0] and no archive, or complete with progress [100] and an archive),
    then after a run of [zipAllFolders], whenever stop is clicked, every
    folder is at rest again: an archive is present exactly on the complete
    folders. *)
Theorem zipAllFolders_atRest : forall round_percent env st,
  (forall f, In f (folders st) -> atRest f) ->
  forall f, In f (folders (zipAllFolders round_percent env st)) -> atRest f.
Proof.
  intros round_percent env st Hrest.
  pose proof (zipAllFolders_pointwise round_percent env st) as H.
  induction H as [|f0 f0' l l' Hf _ IH]; intros f Hin; [destruct Hin|].
  destruct Hin as [<-|Hin].
  - assert (H0 : atRest f0) by (apply Hrest; now left).
    destruct Hf as [->|[Hp [->| ->]]]; [exact H0| |].
    + left. unfold isPendingFolder in Hp.
      destruct H0 as [[_ [_ Hb]]|[Hs _]].
      * simpl. repeat split. exact Hb.
      * rewrite Hs in Hp. discriminate Hp.
    + right. simpl. repeat split. eexists. reflexivity.
  - apply IH; [|exact Hin]. intros g Hg. apply Hrest. now right.
Qed.

Lemma zipAllFolders_atRest_witness :
  atRest (resetFolderState folder_src).
Proof.
  apply (zipAllFolders_atRest round_percent_exact (stopAt 2)
           (mkState [folder_docs; folder_src; folder_empty] false)).
  - intros f [<-|[<-|[<-|[]]]]; left; repeat split.
  - simpl. right. now left.
Defined.

(** X18. When the registry holds no folder classified as a file and nobody
    clicks stop, [zipAllFolders] ends with the flag clear and has zipped
    every pending folder, in place: each is complete, with progress [100]
    and an archive that holds its files in order, each under its relative
    path; the other folders are as before. *)
Theorem zipAllFolders_unstopped : forall round_percent st,
  (forall f, In f (folders st) -> Folder.isFile f = false) ->
  zipAllFolders round_percent neverStop st
  = mkState
      (map (fun f =>
              if FolderStatus_eqb (Folder.status f) PENDING
              then Folder.mk (Folder.id f) (Folder.name f) (Folder.files f)
                     COMPLETE 100%Z
                     (Some (ZipBlob
                              (map (fun file =>
                                      (calculateRelativePath file (Folder.name f), file))
                                   (Folder.files f))))
                     false
              else f)
           (folders st))
      false.
Proof.
  intros round_percent st Hvalid.
  rewrite (zipAllFolders_neverStop round_percent st Hvalid). f_equal.
  apply map_ext_in. intros f Hin.
  unfold zippedIfPending, isPendingFolder, zipped. rewrite (Hvalid f Hin).
  now rewrite andb_true_r.
Qed.

Lemma zipAllFolders_unstopped_witness :
  zipAllFolders round_percent_exact neverStop
    (mkState [folder_docs; folder_docs_done] true)
  = mkState [folder_docs_done; folder_docs_done] false.
Proof.
  apply (zipAllFolders_unstopped round_percent_exact
           (mkState [folder_docs; folder_docs_done] true)).
  intros f [<-|[<-|[]]]; reflexivity.
Defined.

(** X19. Stopping loses nothing: a run of [zipAllFolders] that is stopped
    at any moment, followed by a run that is not stopped, leaves the state
    that a single run that is not stopped leaves. *)
Theorem zipAllFolders_resume : forall round_percent env st,
  zipAllFolders round_percent neverStop (zipAllFolders round_percent env st)
  = zipAllFolders round_percent neverStop st.
Proof.
  intros round_percent env st.
  destruct (validateAndHighlightFiles st) eqn:Ev.
  - unfold zipAllFolders at 2. now rewrite Ev.
  - assert (Hvalid : forall f, In f (folders st) -> Folder.isFile f = false).
    { intros f Hin. destruct (Folder.isFile f) eqn:E; [|reflexivity].
      rewrite (validateAndHighlightFiles_true st) in Ev; [discriminate|].
      now exists f. }
    pose proof (zipAllFolders_pointwise round_percent env st) as Hpt.
    assert (Hvalid' : forall f, In f (folders (zipAllFolders round_percent env st)) ->
                                Folder.isFile f = false).
    { intros f' Hin.
      assert (Hids : In (Folder.isFile f')
                        (map Folder.isFile (folders (zipAllFolders round_percent env st))))
        by (apply in_map_iff; now exists f').
      rewrite (Forall2_map_eq _ _ Folder.isFile _ _ _ Hpt) in Hids.
      - apply in_map_iff in Hids as [f [E Hf]]. rewrite <- E. now apply Hvalid.
      - intros a a' [->|[_ [->| ->]]]; reflexivity. }
    rewrite (zipAllFolders_neverStop round_percent _ Hvalid').
    rewrite (zipAllFolders_neverStop round_percent st Hvalid).
    f_equal. apply (Forall2_map_eq _ _ zippedIfPending _ _ _ Hpt).
    intros a a' Ha. now apply zippedIfPending_after.
Qed.

(** X20. A [zipFolder] that starts with the flag clear and is not stopped
    during the waits after its files passes one await per file and one for
    the generation, and returns the folder complete, with progress [100]
    and an archive that was given every file once, in order, under its
    relative path; a stop during the generation only sets the flag. *)
Theorem zipFolder_complete : forall round_percent env folder s,
  stopFlag s = false ->
  (forall k, k < List.length (Folder.files folder) -> env (awaits s + k) = false) ->
  zipFolder round_percent env folder s
  = (Folder.mk (Folder.id folder) (Folder.name folder) (Folder.files folder)
       COMPLETE 100%Z
       (Some (ZipBlob (map (fun file =>
                              (calculateRelativePath file (Folder.name folder), file))
                           (Folder.files folder))))
       (Folder.isFile folder),
     mkSched (env (awaits s + List.length (Folder.files folder)))
             (awaits s + List.length (Folder.files folder) + 1)).
Proof.
  intros round_percent env folder s Hs Henv.
  rewrite (zipFolder_run round_percent env folder s Hs Henv).
  unfold zipped, generateAsync, zipEntries. f_equal. f_equal. lia.
Qed.

Lemma zipFolder_complete_witness :
  zipFolder round_percent_exact (stopAt 2) folder_src (mkSched false 0)
  = (Folder.mk 2%N "src" [File.mk "Root/src/x" "x"; File.mk "Root/src/y" "y"]
       COMPLETE 100%Z
       (Some (ZipBlob [("x"%string, File.mk "Root/src/x" "x");
                       ("y"%string, File.mk "Root/src/y" "y")]))
       false,
     mkSched true 3).
Proof.
  apply (zipFolder_complete round_percent_exact (stopAt 2) folder_src (mkSched false 0)).
  - reflexivity.
  - simpl. intros k Hk. destruct k as [|[|k]]; [reflexivity | reflexivity | lia].
Defined.

(** X21. Cleaning up unblocks the zip: after [removeUnwantedFiles] a run of
    [zipAllFolders] that nobody stops does not abort; it zips every pending
    folder that is left and ends with the flag clear. *)
Theorem zipAllFolders_after_cleanup : forall round_percent page,
  zipAllFolders round_percent neverStop (state (removeUnwantedFiles page))
  = mkState
      (map zippedIfPending
           (filter (fun f => negb (Folder.isFile f)) (folders (state page))))
      false.
Proof.
  intros round_percent page.
  rewrite zipAllFolders_neverStop.
  - now rewrite removeUnwantedFiles_folders.
  - intros f Hin. rewrite removeUnwantedFiles_folders in Hin.
    apply filter_In in Hin as [_ Hf]. now apply negb_true_iff.
Qed.

(** ** Relative paths, continued *)

Lemma or_else_nonempty : forall a b, b <> ""%string -> or_else a b <> ""%string.
Proof. intros [|c a] b H; simpl; [exact H | discriminate]. Qed.

(** X22. The path of an entry of an archive is never empty: for a file with
    a non-empty name [calculateRelativePath] returns a non-empty string,
    whatever the path of the file and the name of the folder. *)
Theorem calculateRelativePath_nonempty : forall file folderName,
  File.name file <> ""%string ->
  calculateRelativePath file folderName <> ""%string.
Proof.
  intros file folderName H. unfold calculateRelativePath.
  destruct (0 <=? indexOf (split "/" (File.webkitRelativePath file)) folderName)%Z.
  - now apply or_else_nonempty.
  - destruct (1 <? List.length (split "/" (File.webkitRelativePath file))).
    + now apply or_else_nonempty.
    + exact H.
Qed.

Lemma calculateRelativePath_nonempty_witness :
  calculateRelativePath file_slash "a" <> ""%string.
Proof.
  apply (calculateRelativePath_nonempty file_slash "a"). discriminate.
Defined.

Lemma split_app_sep : forall sep a b,
  ~ In sep (list_ascii_of_string a) ->
  split sep (a ++ String sep b)%string = a :: split sep b.
Proof.
  intros sep. induction a as [|c a IH]; intros b H.
  - simpl. now rewrite Ascii.eqb_refl.
  - simpl. destruct (Ascii.eqb c sep) eqn:E.
    + apply Ascii.eqb_eq in E. exfalso. apply H. now left.
    + rewrite IH; [reflexivity|]. intros F. apply H. now right.
Qed.

Lemma join_cons : forall p parts,
  parts <> [] -> join "/" (p :: parts) = (p ++ String "/" (join "/" parts))%string.
Proof.
  intros p [|q parts] H; [now contradiction H|]. reflexivity.
Qed.

Lemma join_split : forall s, join "/" (split "/" s) = s.
Proof.
  induction s as [|c s IH]; [reflexivity|].
  simpl. destruct (Ascii.eqb c "/") eqn:E.
  - apply Ascii.eqb_eq in E. subst c.
    rewrite join_cons by apply split_not_nil. now rewrite IH.
  - pose proof (split_not_nil "/" s) as Hne.
    destruct (split "/" s) as [|seg segs]; [contradiction|].
    destruct segs as [|seg' segs].
    + simpl in *. now rewrite IH.
    + rewrite join_cons by discriminate.
      rewrite join_cons in IH by discriminate.
      cbn [append]. now rewrite IH.
Qed.

(** X23. When the path of a file is the folder name, a slash and a rest, or
    a root other than the folder name, a slash, the folder name, a slash
    and a rest, [calculateRelativePath] returns the rest, and the name of
    the file when the rest is empty: the entry sits in the archive without
    the folder and what is above it. *)
Theorem calculateRelativePath_strips_folder : forall file folderName rest,
  ~ In "/"%char (list_ascii_of_string folderName) ->
  (File.webkitRelativePath file = (folderName ++ String "/" rest)%string ->
   calculateRelativePath file folderName = or_else rest (File.name file))
  /\ (forall root,
        ~ In "/"%char (list_ascii_of_string root) ->
        root <> folderName ->
        File.webkitRelativePath file
        = (root ++ String "/" (folderName ++ String "/" rest))%string ->
        calculateRelativePath file folderName = or_else rest (File.name file)).
Proof.
  intros file folderName rest Hname. split.
  - intros Hpath.
    rewrite (calculateRelativePath_match file folderName [] (split "/" rest)).
    + now rewrite join_split.
    + rewrite Hpath. now apply split_app_sep.
    + intros [].
  - intros root Hroot Hne Hpath.
    rewrite (calculateRelativePath_match file folderName [root] (split "/" rest)).
    + now rewrite join_split.
    + rewrite Hpath. rewrite split_app_sep by exact Hroot.
      now rewrite split_app_sep by exact Hname.
    + intros [E|[]]. now apply Hne.
Qed.

Lemma calculateRelativePath_strips_folder_witness :
  calculateRelativePath (File.mk "Root/src/lib/x.js" "x.js") "src"
  = "lib/x.js"%string
  /\ calculateRelativePath (File.mk "src/lib/x.js" "x.js") "src"
     = "lib/x.js"%string.
Proof.
  assert (Hsrc : ~ In "/"%char (list_ascii_of_string "src")).
  { simpl. intros H. repeat (destruct H as [E|H]; [discriminate E|]). exact H. }
  split.
  - apply (proj2 (calculateRelativePath_strips_folder
                    (File.mk "Root/src/lib/x.js" "x.js") "src" "lib/x.js" Hsrc) "Root").
    + simpl. intros H. repeat (destruct H as [E|H]; [discriminate E|]). exact H.
    + discriminate.
    + reflexivity.
  - apply (proj1 (calculateRelativePath_strips_folder
                    (File.mk "src/lib/x.js" "x.js") "src" "lib/x.js" Hsrc)).
    reflexivity.
Defined.

(** X24. A folder named like the root above it is not stripped: when the
    path is the folder name twice, each followed by a slash, and a rest,
    the first of the two segments is taken for the folder, and
    [calculateRelativePath] returns the folder name, a slash and the
    rest. *)
Theorem calculateRelativePath_repeated_name : forall file folderName rest,
  ~ In "/"%char (list_ascii_of_string folderName) ->
  File.webkitRelativePath file
  = (folderName ++ String "/" (folderName ++ String "/" rest))%string ->
  calculateRelativePath file folderName
  = (folderName ++ String "/" rest)%string.
Proof.
  intros file folderName rest Hname Hpath.
  rewrite (calculateRelativePath_match file folderName []
             (folderName :: split "/" rest)).
  - rewrite join_cons by apply split_not_nil. rewrite join_split.
    destruct folderName; reflexivity.
  - rewrite Hpath. rewrite split_app_sep by exact Hname.
    now rewrite split_app_sep by exact Hname.
  - intros [].
Qed.

Lemma calculateRelativePath_repeated_name_witness :
  calculateRelativePath (File.mk "app/app/main.js" "main.js") "app"
  = "app/main.js"%string.
Proof.
  apply (calculateRelativePath_repeated_name
           (File.mk "app/app/main.js" "main.js") "app" "main.js").
  - simpl. intros H. repeat (destruct H as [E|H]; [discriminate E|]). exact H.
  - reflexivity.
Defined.

(** ** What the page offers *)

Lemma existsb_isFile_validate : forall st,
  existsb Folder.isFile (folders st) = validateAndHighlightFiles st.
Proof.
  intros st. unfold validateAndHighlightFiles.
  induction (folders st) as [|f l IH]; [reflexivity|].
  simpl. destruct (Folder.isFile f); simpl; [reflexivity | exact IH].
Qed.

Lemma existsb_false_all : forall (A : Type) (p : A -> bool) l,
  existsb p l = false <-> forall x, In x l -> p x = false.
Proof.
  intros A p l. induction l as [|a l IH]; simpl.
  - split; [intros _ x [] | reflexivity].
  - rewrite orb_false_iff, IH. split.
    + intros [Ha Hl] x [<-|Hx]; [exact Ha | now apply Hl].
    + intros H. split; [apply H; now left | intros x Hx; apply H; now right].
Qed.

Lemma hasStatus_eq : forall s f, hasStatus s f = true <-> Folder.status f = s.
Proof.
  intros s f. unfold hasStatus.
  destruct (Folder.status f), s; simpl; split; intros H;
    first [reflexivity | discriminate H].
Qed.

(** X25. The cleanup button is displayed exactly when [zipAllFolders]
    refuses to run: [updateUI] shows it if and only if
    [validateAndHighlightFiles] answers [true], and then a call of
    [zipAllFolders] returns the state as it is. *)
Theorem cleanupBtn_matches_abort : forall st,
  cleanupBtn (updateUI st) = validateAndHighlightFiles st
  /\ (cleanupBtn (updateUI st) = true ->
      forall round_percent env, zipAllFolders round_percent env st = st).
Proof.
  intros st.
  assert (E : cleanupBtn (updateUI st) = validateAndHighlightFiles st)
    by apply existsb_isFile_validate.
  split; [exact E|].
  intros H round_percent env. unfold zipAllFolders.
  rewrite E in H. now rewrite H.
Qed.

Lemma cleanupBtn_matches_abort_witness :
  zipAllFolders round_percent_exact neverStop
    (mkState [folder_docs; folder_stray] false)
  = mkState [folder_docs; folder_stray] false.
Proof.
  apply (proj2 (cleanupBtn_matches_abort (mkState [folder_docs; folder_stray] false))).
  reflexivity.
Defined.

Lemma allZippingComplete_iff : forall st,
  allZippingComplete (calculateUIState st) = true
  <-> (exists f, In f (folders st) /\ Folder.status f = COMPLETE)
      /\ (forall f, In f (folders st) -> Folder.isFile f = false ->
                    Folder.status f = COMPLETE).
Proof.
  intros st. unfold calculateUIState. cbn [allZippingComplete].
  rewrite !andb_true_iff, !negb_true_iff, !existsb_false_all, existsb_exists.
  split.
  - intros [[[f [Hin Hc]] Hz] Hp]. split.
    + exists f. split; [exact Hin | now apply hasStatus_eq].
    + intros g Hg Hv.
      assert (Hgv : In g (filter (fun f0 => negb (Folder.isFile f0)) (folders st)))
        by (apply filter_In; split; [exact Hg | now rewrite Hv]).
      specialize (Hz g Hgv). specialize (Hp g Hgv).
      unfold hasStatus in Hz, Hp.
      destruct (Folder.status g); simpl in *; try discriminate; reflexivity.
  - intros [[f [Hin Hc]] Hall]. repeat split.
    + exists f. split; [exact Hin | now apply hasStatus_eq].
    + intros g Hg. apply filter_In in Hg as [Hg Hv].
      apply negb_true_iff in Hv. unfold hasStatus.
      now rewrite (Hall g Hg Hv).
    + intros g Hg. apply filter_In in Hg as [Hg Hv].
      apply negb_true_iff in Hv. unfold hasStatus.
      now rewrite (Hall g Hg Hv).
Qed.

(** X26. The download-all button is displayed exactly when some folder is
    complete and every folder that is not classified as a file is
    complete. *)
Theorem downloadAllBtn_iff : forall st,
  downloadAllBtn (updateUI st) = true
  <-> (exists f, In f (folders st) /\ Folder.status f = COMPLETE)
      /\ (forall f, In f (folders st) -> Folder.isFile f = false ->
                    Folder.status f = COMPLETE).
Proof.
  intros st. apply allZippingComplete_iff.
Qed.

Lemma downloadAllBtn_iff_witness :
  downloadAllBtn (updateUI (mkState [folder_docs_done; folder_stray] false)) = true.
Proof.
  apply (proj2 (downloadAllBtn_iff (mkState [folder_docs_done; folder_stray] false))).
  split.
  - exists folder_docs_done. split; [now left | reflexivity].
  - intros f [<-|[<-|[]]] H; [reflexivity | discriminate H].
Defined.

(** X27. After a run of [zipAllFolders] that nobody stops, on a registry
    that is not empty and holds no folder classified as a file nor one
    being zipped, [updateUI] displays the download-all and the clear-all
    buttons and hides the empty-state notice, the zip-all button and the
    cleanup button. *)
Theorem updateUI_after_unstopped_run : forall round_percent st,
  folders st <> [] ->
  (forall f, In f (folders st) -> Folder.isFile f = false) ->
  (forall f, In f (folders st) -> Folder.status f <> ZIPPING) ->
  updateUI (zipAllFolders round_percent neverStop st)
  = mkDisplayed false false false true true.
Proof.
  intros round_percent st Hne Hvalid Hnz.
  rewrite (zipAllFolders_neverStop round_percent st Hvalid).
  set (st' := mkState (map zippedIfPending (folders st)) false).
  assert (Hall : forall f, In f (folders st') ->
                           Folder.status f = COMPLETE /\ Folder.isFile f = false).
  { intros f' Hin. simpl in Hin. apply in_map_iff in Hin as [f [<- Hin]].
    specialize (Hvalid f Hin). specialize (Hnz f Hin).
    unfold zippedIfPending, isPendingFolder. rewrite Hvalid.
    destruct (Folder.status f) eqn:Es; simpl; try contradiction;
      split; first [assumption | reflexivity]. }
  assert (Hlen : (0 <? List.length (folders st')) = true).
  { simpl. rewrite length_map. apply Nat.ltb_lt.
    destruct (folders st); [contradiction | simpl; lia]. }
  assert (Hcomplete : allZippingComplete (calculateUIState st') = true).
  { apply allZippingComplete_iff. split.
    - destruct (folders st') as [|f l] eqn:E; [discriminate Hlen|].
      exists f. split; [now left | apply Hall; now left].
    - intros f Hin _. now apply Hall. }
  assert (Hunwanted : existsb Folder.isFile (folders st') = false).
  { apply existsb_false_all. intros f Hin. now apply Hall. }
  assert (Hpending : existsb (hasStatus PENDING)
                       (filter (fun f => negb (Folder.isFile f)) (folders st')) = false).
  { apply existsb_false_all. intros f Hin. apply filter_In in Hin as [Hin _].
    unfold hasStatus. now rewrite (proj1 (Hall f Hin)). }
  unfold updateUI.
  change (hasFolders (calculateUIState st')) with (0 <? List.length (folders st')).
  change (hasUnwantedFiles (calculateUIState st'))
    with (existsb Folder.isFile (folders st')).
  change (hasPendingFolders (calculateUIState st'))
    with (existsb (hasStatus PENDING)
            (filter (fun f => negb (Folder.isFile f)) (folders st'))).
  now rewrite Hlen, Hunwanted, Hpending, Hcomplete.
Qed.

Lemma updateUI_after_unstopped_run_witness :
  updateUI (zipAllFolders round_percent_exact neverStop
              (mkState [folder_docs; folder_empty] false))
  = mkDisplayed false false false true true.
Proof.
  apply (updateUI_after_unstopped_run round_percent_exact
           (mkState [folder_docs; folder_empty] false)).
  - discriminate.
  - intros f [<-|[<-|[]]]; reflexivity.
  - intros f [<-|[<-|[]]]; discriminate.
Defined.

(** ** Downloads *)

Lemma string_app_inv_tail : forall a b c : string,
  (a ++ c)%string = (b ++ c)%string -> a = b.
Proof.
  induction a as [|x a IH]; intros b c H.
  - destruct b as [|y b]; [reflexivity|].
    apply (f_equal String.length) in H.
    rewrite !string_app_length in H. simpl in H. lia.
  - destruct b as [|y b].
    + apply (f_equal String.length) in H.
      rewrite !string_app_length in H. simpl in H. lia.
    + simpl in H. injection H as -> H. now rewrite (IH b c H).
Qed.

Lemma downloadAllZips_entries_In : forall fs n blob,
  In (n, blob) (downloadAllZips_entries fs)
  <-> exists f, In f fs /\ Folder.zipBlob f = Some blob
                /\ n = (Folder.name f ++ ".zip")%string.
Proof.
  induction fs as [|f fs IH]; intros n blob; simpl.
  - split; [intros [] | intros [g [[] _]]].
  - destruct (Folder.zipBlob f) as [b|] eqn:Eb; simpl; rewrite IH; split.
    + intros [E|[g [Hg Hrest]]].
      * injection E as <- <-. exists f. repeat split; [now left | exact Eb].
      * exists g. split; [now right | exact Hrest].
    + intros [g [[<-|Hg] [Hb Hn]]].
      * left. rewrite Eb in Hb. injection Hb as ->. now rewrite Hn.
      * right. exists g. repeat split; assumption.
    + intros [g [Hg Hrest]]. exists g. split; [now right | exact Hrest].
    + intros [g [[<-|Hg] [Hb Hn]]].
      * rewrite Eb in Hb. discriminate Hb.
      * exists g. repeat split; assumption.
Qed.

Lemma downloadAllZips_entries_NoDup : forall fs,
  NoDup (map Folder.name fs) -> NoDup (map fst (downloadAllZips_entries fs)).
Proof.
  induction fs as [|f fs IH]; intros H; [constructor|].
  simpl in H. inversion H as [|? ? Hnot Hnd]; subst. simpl.
  destruct (Folder.zipBlob f) as [b|]; [|now apply IH].
  simpl. constructor; [|now apply IH].
  intros Hin. apply in_map_iff in Hin as [[n b'] [Hn Hin]]. simpl in Hn. subst n.
  apply downloadAllZips_entries_In in Hin as [g [Hg [_ Hname]]].
  apply string_app_inv_tail in Hname.
  apply Hnot. apply in_map_iff. exists g. split; [now symmetry | exact Hg].
Qed.

(** X28. The archive [downloadAllZips] builds holds an entry for a name and
    a blob exactly when some folder of the registry carries that blob as
    its archive and the name is the name of that folder followed by
    [.zip]; folders without an archive are skipped.  When no two folders
    have the same name, no two entries have the same name. *)
Theorem downloadAllZips_entries_spec : forall st,
  (forall n blob,
     In (n, blob) (fst (downloadAllZips st))
     <-> exists f, In f (folders st) /\ Folder.zipBlob f = Some blob
                   /\ n = (Folder.name f ++ ".zip")%string)
  /\ (uniqueNames st -> NoDup (map fst (fst (downloadAllZips st)))).
Proof.
  intros st. split.
  - intros n blob. apply downloadAllZips_entries_In.
  - apply downloadAllZips_entries_NoDup.
Qed.

Lemma downloadAllZips_entries_spec_witness :
  NoDup (map fst (fst (downloadAllZips
                         (mkState [folder_docs_done; folder_src] false)))).
Proof.
  apply (proj2 (downloadAllZips_entries_spec
                  (mkState [folder_docs_done; folder_src] false))).
  unfold uniqueNames. simpl. repeat constructor; simpl; intros H;
    repeat (destruct H as [E|H]; [discriminate E|]); exact H.
Defined.

Lemma downloadAllZips_entries_all : forall fs,
  (forall f, In f fs -> Folder.zipBlob f <> None) ->
  map fst (downloadAllZips_entries fs)
  = map (fun f => (Folder.name f ++ ".zip")%string) fs.
Proof.
  induction fs as [|f fs IH]; intros H; [reflexivity|].
  simpl. destruct (Folder.zipBlob f) eqn:Eb.
  - simpl. rewrite IH; [reflexivity|]. intros g Hg. apply H. now right.
  - exfalso. apply (H f); [now left | exact Eb].
Qed.

(** X29. After a run of [zipAllFolders] that nobody stops, on a registry
    whose folders are at rest and none of which is classified as a file,
    the archive of [downloadAllZips] has one entry for every folder of the
    registry, in the order of the registry, named after the folder with
    [.zip] appended. *)
Theorem downloadAllZips_after_unstopped_run : forall round_percent st,
  (forall f, In f (folders st) -> Folder.isFile f = false) ->
  (forall f, In f (folders st) -> atRest f) ->
  map fst (fst (downloadAllZips (zipAllFolders round_percent neverStop st)))
  = map (fun f => (Folder.name f ++ ".zip")%string) (folders st).
Proof.
  intros round_percent st Hvalid Hrest.
  rewrite (zipAllFolders_neverStop round_percent st Hvalid).
  unfold downloadAllZips. cbn [fst folders].
  rewrite downloadAllZips_entries_all.
  - rewrite map_map. apply map_ext. intros f.
    unfold zippedIfPending. now destruct (isPendingFolder f).
  - intros f' Hin. apply in_map_iff in Hin as [f [<- Hin]].
    unfold zippedIfPending, isPendingFolder. rewrite (Hvalid f Hin).
    destruct (Hrest f Hin) as [[Hs _]|[Hs [_ [b Hb]]]]; rewrite Hs; simpl.
    + discriminate.
    + rewrite Hb. discriminate.
Qed.

Lemma downloadAllZips_after_unstopped_run_witness :
  map fst (fst (downloadAllZips
                  (zipAllFolders round_percent_exact neverStop
                     (mkState [folder_docs; folder_src] false))))
  = ["docs.zip"; "src.zip"]%string.
Proof.
  apply (downloadAllZips_after_unstopped_run round_percent_exact
           (mkState [folder_docs; folder_src] false)).
  - intros f [<-|[<-|[]]]; reflexivity.
  - intros f [<-|[<-|[]]]; left; repeat split.
Defined.

(** ** A late callback *)

(** X30. The callback that [removeUnwantedFiles] schedules for its last
    unwanted row filters the registry once more when it runs: a folder
    classified as a file that was added in between leaves the registry
    without any click, while its row stays in the folders list. *)
Theorem removeUnwantedFiles_timeout_drops_late_folder :
  forall page file newId name files,
    isFile name = true ->
    ~ In name (map Folder.name (folders (state page))) ->
    newId <> Folder.id file ->
    let late := addFolder newId name files page in
    let after := removeUnwantedFiles_timeout file true late in
    In (createFolderObject newId name files) (folders (state late))
    /\ ~ In (createFolderObject newId name files) (folders (state after))
    /\ hasFolderElement after newId = true.
Proof.
  intros page file newId name files Hfile Hnew Hid late after.
  assert (E : late = mkPage (mkState (folders (state page)
                                        ++ [createFolderObject newId name files])
                                     (shouldStopZipping (state page)))
                            (foldersList page ++ [newId])).
  { unfold late. destruct (addFolder_cases newId name files page) as [[Hin _]|[_ E]];
      [contradiction | exact E]. }
  split; [|split].
  - rewrite E. simpl. apply in_or_app. right. now left.
  - unfold after, removeUnwantedFiles_timeout. simpl.
    intros Hin. apply filter_In in Hin as [_ Hv].
    simpl in Hv. rewrite Hfile in Hv. discriminate Hv.
  - unfold after, removeUnwantedFiles_timeout, hasFolderElement. simpl.
    rewrite existsb_filter_other by exact Hid.
    rewrite E. simpl. rewrite existsb_app. simpl.
    rewrite N.eqb_refl. now rewrite orb_true_r.
Qed.

Lemma removeUnwantedFiles_timeout_drops_late_folder_witness :
  let page := mkPage (mkState [folder_docs] false) [1%N; 4%N] in
  let late := addFolder 9%N "late.txt" [] page in
  let after := removeUnwantedFiles_timeout folder_stray true late in
  In (createFolderObject 9%N "late.txt" []) (folders (state late))
  /\ ~ In (createFolderObject 9%N "late.txt" []) (folders (state after))
  /\ hasFolderElement after 9%N = true.
Proof.
  intros page.
  apply (removeUnwantedFiles_timeout_drops_late_folder page folder_stray 9%N
           "late.txt" []).
  - reflexivity.
  - simpl. intros [E|[]]. discriminate E.
  - discriminate.
Defined.

(** ** Files of a selection, pages the script builds *)



(** The operations of the script keep "no folder classified as a file is
    being zipped": it holds of the empty registry, and after [addFolder],
    [processUploadedFiles], [removeFolder], [removeUnwantedFiles],
    [stopZipping], [clearAllFolders] and a run of [zipAllFolders] if it
    held before. *)
Lemma unwantedNotZipping_kept : forall page,
  unwantedNotZipping (state page) ->
  (forall newId name files,
     unwantedNotZipping (state (addFolder newId name files page)))
  /\ (forall ids files,
        unwantedNotZipping (state (processUploadedFiles ids files page)))
  /\ (forall folder, unwantedNotZipping (state (removeFolder folder page)))
  /\ unwantedNotZipping (state (removeUnwantedFiles page))
  /\ unwantedNotZipping (stopZipping (state page))
  /\ unwantedNotZipping (state (clearAllFolders page))
  /\ (forall round_percent env,
        unwantedNotZipping (zipAllFolders round_percent env (state page))).
Proof.
  intros page H. repeat split.
  - intros newId name files f Hin Hf.
    destruct (addFolder_cases newId name files page) as [[_ E]|[_ E]];
      rewrite E in Hin; [now apply H|].
    simpl in Hin. apply in_app_or in Hin as [Hin|[<-|[]]];
      [now apply H | discriminate].
  - intros ids files f Hin Hf.
    destruct (addFolders_appends (processUploadedFiles_folderMap files) ids 0 page)
      as [added [E [_ Hall]]].
    unfold processUploadedFiles in Hin. rewrite E in Hin.
    apply in_app_or in Hin as [Hin|Hin]; [now apply H|].
    rewrite Forall_forall in Hall. destruct (Hall f Hin) as [Hs _].
    rewrite Hs. discriminate.
  - intros folder f Hin Hf.
    destruct (removeFolder_cases folder page) as [E|[_ [_ E]]];
      rewrite E in Hin; [now apply H|].
    simpl in Hin. apply filter_In in Hin as [Hin _]. now apply H.
  - intros f Hin Hf. rewrite removeUnwantedFiles_folders in Hin.
    apply filter_In in Hin as [Hin _]. now apply H.
  - intros f Hin Hf. simpl in Hin. now apply H.
  - intros f [].
  - intros round_percent env f' Hin Hf.
    pose proof (zipAllFolders_pointwise round_percent env (state page)) as Hpt.
    unfold unwantedNotZipping in H.
    revert Hpt H Hin.
    generalize (folders (zipAllFolders round_percent env (state page))) as l'.
    generalize (folders (state page)) as l.
    intros l l' Hpt.
    induction Hpt as [|f0 f0' l l' Hrel _ IH]; intros H Hin; [destruct Hin|].
    destruct Hin as [<-|Hin].
    + destruct Hrel as [->|[Hp [->| ->]]].
      * apply H; [now left | exact Hf].
      * simpl. discriminate.
      * simpl. discriminate.
    + apply IH; [|exact Hin].
      intros g Hg Hgf. apply H; [now right | exact Hgf].
Qed.



(** C8. On a page where every folder of the registry has its row, as on
    every page the script builds, [removeFolder] on a folder of the
    registry whose status is [ZIPPING] changes nothing, and the folder is
    still in the registry; on a folder of the registry in another status
    it removes the folder from the registry (with every folder that has
    its id), keeps the other folders in order and leaves the flag as it
    is. *)
Theorem removeFolder_of_registered_folder : forall folder page,
  rowsCover page ->
  In folder (folders (state page)) ->
  (Folder.status folder = ZIPPING ->
     removeFolder folder page = page
     /\ In folder (folders (state (removeFolder folder page))))
  /\ (Folder.status folder <> ZIPPING ->
      folders (state (removeFolder folder page))
      = filter (fun f => negb (N.eqb (Folder.id f) (Folder.id folder)))
               (folders (state page))
      /\ ~ In folder (folders (state (removeFolder folder page)))
      /\ (forall f, In f (folders (state page)) ->
            Folder.id f <> Folder.id folder ->
            In f (folders (state (removeFolder folder page))))
      /\ shouldStopZipping (state (removeFolder folder page))
         = shouldStopZipping (state page)).
Proof.
  intros folder page Hrows Hin. split.
  - intros Hz.
    assert (E : removeFolder folder page = page)
      by (unfold removeFolder; now rewrite Hz).
    rewrite E. split; [reflexivity | exact Hin].
  - intros Hst.
    assert (E : removeFolder folder page
                = mkPage (mkState
                            (filter (fun f => negb (N.eqb (Folder.id f) (Folder.id folder)))
                                    (folders (state page)))
                            (shouldStopZipping (state page)))
                         (foldersList page)).
    { unfold removeFolder. rewrite (Hrows folder Hin).
      destruct (Folder.status folder); try contradiction; reflexivity. }
    rewrite E. cbn [state folders shouldStopZipping].
    split; [reflexivity|]. split; [|split; [|reflexivity]].
    + intros F. apply filter_In in F as [_ Hid].
      rewrite N.eqb_refl in Hid. discriminate Hid.
    + intros f Hf Hid. apply filter_In. split; [exact Hf|].
      apply negb_true_iff. now apply N.eqb_neq.
Qed.

Lemma removeFolder_of_registered_folder_witness :
  let page := mkPage (mkState [folder_docs_zipping; folder_src] true) [1%N; 2%N] in
  removeFolder folder_docs_zipping page = page
  /\ folders (state (removeFolder folder_src page)) = [folder_docs_zipping].
Proof.
  intros page.
  assert (Hrows : rowsCover page).
  { intros f [<-|[<-|[]]]; reflexivity. }
  split.
  - apply (proj1 (proj1 (removeFolder_of_registered_folder folder_docs_zipping page
                           Hrows (or_introl eq_refl)) eq_refl)).
  - apply (proj1 (proj2 (removeFolder_of_registered_folder folder_src page
                           Hrows (or_intror (or_introl eq_refl)))
                    ltac:(discriminate))).
Defined.
